(** * html-to-react: a shallow embedding of the HTML-to-React conversion pipeline

    The development follows [html-to-react.js]: the converter class
    [HTMLToReactConverter] with its methods, the two module functions
    [convertHTMLToReact] and [writeComponents], and the command line entry.

    Conventions of the embedding.
    - A JavaScript string is a [string]; one character of the model stands for
      one code unit, and the character classes ([\s], [a-z], case mapping) are
      the ASCII ones, so the model is exact on ASCII text.
    - The DOM that jsdom builds is the inductive type [node]; the parser itself
      is a library function and enters as a section variable.
    - An element is identified (JavaScript [===]) by its position in the
      document, a path of child indices.
    - Mutable converter state ([componentCounter]) is threaded explicitly;
      [Heap] keeps the instances that calls make, by reference.
    - The file system is a finite map from paths to contents plus a set of
      directories; [throw] is the error summand of [result]. *)

From Stdlib Require Import Ascii String List Bool Arith Lia.
From stdpp Require Import base option list strings pretty gmap.
Import ListNotations.
Open Scope string_scope.
Set Warnings "-register-all,-clear-no-such-hyp".

(** ** JavaScript strings *)

Module JS.

Definition code (c : ascii) : nat := nat_of_ascii c.

Definition in_range (lo hi : nat) (c : ascii) : bool :=
  Nat.leb lo (code c) && Nat.leb (code c) hi.

Definition is_lower (c : ascii) : bool := in_range 97 122 c.
Definition is_upper (c : ascii) : bool := in_range 65 90 c.
Definition is_digit (c : ascii) : bool := in_range 48 57 c.
Definition is_alnum (c : ascii) : bool := is_lower c || is_upper c || is_digit c.

(** [\s] and the characters [trim] strips: tab, line feed, vertical tab, form
    feed, carriage return, space. These are the ASCII ones; JavaScript also
    counts U+00A0, U+FEFF and the Unicode space separators, which ASCII text
    does not hold. *)
Definition is_space (c : ascii) : bool :=
  in_range 9 13 c || Nat.eqb (code c) 32.

(** The line terminators that [.] does not match. *)
Definition is_line_terminator (c : ascii) : bool :=
  Nat.eqb (code c) 10 || Nat.eqb (code c) 13.

(** The case mapping of one code unit, exact on ASCII text; outside ASCII
    [toUpperCase] may return more than one code unit. *)
Definition upper_char (c : ascii) : ascii :=
  if is_lower c then ascii_of_nat (code c - 32) else c.
Definition lower_char (c : ascii) : ascii :=
  if is_upper c then ascii_of_nat (code c + 32) else c.

Fixpoint map_chars (f : ascii -> ascii) (s : string) : string :=
  match s with
  | EmptyString => EmptyString
  | String c r => String (f c) (map_chars f r)
  end.

Definition toLowerCase : string -> string := map_chars lower_char.
Definition toUpperCase : string -> string := map_chars upper_char.

Definition chr (n : nat) : string := String (ascii_of_nat n) EmptyString.
Definition dquote : string := chr 34.
Definition newline : string := chr 10.

Fixpoint startsWith (s prefix : string) : bool :=
  match prefix, s with
  | EmptyString, _ => true
  | String p prefix', String c s' => Ascii.eqb p c && startsWith s' prefix'
  | String _ _, EmptyString => false
  end.

Fixpoint includes_char (s : string) (c : ascii) : bool :=
  match s with
  | EmptyString => false
  | String d r => Ascii.eqb c d || includes_char r c
  end.

Fixpoint trimStart (s : string) : string :=
  match s with
  | String c r => if is_space c then trimStart r else s
  | EmptyString => EmptyString
  end.

Fixpoint trimEnd (s : string) : string :=
  match s with
  | EmptyString => EmptyString
  | String c r =>
      match trimEnd r with
      | EmptyString => if is_space c then EmptyString else String c EmptyString
      | r' => String c r'
      end
  end.

Definition trim (s : string) : string := trimEnd (trimStart s).

(** [s.split(sep)] for a one-character separator; [split_from sep s] is the
    first piece of [s] and the list of the pieces after it. *)
Fixpoint split_from (sep : ascii) (s : string) : string * list string :=
  match s with
  | EmptyString => (EmptyString, [])
  | String c r =>
      let '(piece, rest) := split_from sep r in
      if Ascii.eqb c sep then (EmptyString, piece :: rest)
      else (String c piece, rest)
  end.

Definition split (sep : ascii) (s : string) : list string :=
  let '(piece, rest) := split_from sep s in piece :: rest.

Fixpoint join (sep : string) (l : list string) : string :=
  match l with
  | [] => EmptyString
  | [x] => x
  | x :: r => x +:+ sep +:+ join sep r
  end.

Fixpoint repeat (s : string) (n : nat) : string :=
  match n with
  | O => EmptyString
  | S k => s +:+ repeat s k
  end.

(** A string is truthy exactly when it is not empty. *)
Definition truthy (s : string) : bool :=
  match s with EmptyString => false | _ => true end.

(** [s.replace(/c/g, by)] for a one-character pattern. *)
Fixpoint replace_char (c : ascii) (by_ : string) (s : string) : string :=
  match s with
  | EmptyString => EmptyString
  | String d r =>
      (if Ascii.eqb d c then by_ else String d EmptyString) +:+ replace_char c by_ r
  end.

(** [s.replace(/[^a-zA-Z0-9]/g, '')]. *)
Fixpoint keep_alnum (s : string) : string :=
  match s with
  | EmptyString => EmptyString
  | String c r => if is_alnum c then String c (keep_alnum r) else keep_alnum r
  end.

(** Decimal text of a natural number, as a template literal prints it. *)
Definition of_nat (n : nat) : string := pretty n.

End JS.

(** ** JavaScript objects used as maps *)

Module Obj.

(** An object literal with string values: its own properties in enumeration
    order. *)
Definition t := list (string * string).

Fixpoint lookup (o : t) (k : string) : option string :=
  match o with
  | [] => None
  | (k', v) :: r => if String.eqb k' k then Some v else lookup r k
  end.

(** What [o[k]] evaluates to: an own property, or a member inherited from
    [Object.prototype] (named by its key), or [undefined] ([None]). *)
Inductive value :=
  | VStr (s : string)
  | VInherited (k : string).

Definition prototype_keys : list string :=
  [ "constructor"; "__proto__"; "__defineGetter__"; "__defineSetter__";
    "__lookupGetter__"; "__lookupSetter__"; "hasOwnProperty"; "isPrototypeOf";
    "propertyIsEnumerable"; "toLocaleString"; "toString"; "valueOf" ].

Definition inherited (k : string) : bool :=
  existsb (String.eqb k) prototype_keys.

Definition get (o : t) (k : string) : option value :=
  match lookup o k with
  | Some v => Some (VStr v)
  | None => if inherited k then Some (VInherited k) else None
  end.

(** [o[k] || d]: own values of the tables below are never empty, and the
    inherited members are functions or objects, hence truthy. *)
Definition get_or (o : t) (k : string) (d : value) : value :=
  match get o k with
  | Some (VStr v) => if JS.truthy v then VStr v else d
  | Some v => v
  | None => d
  end.

(** String conversion, as a template literal or [join] performs it. *)
Definition to_string (v : value) : string :=
  match v with
  | VStr s => s
  | VInherited k =>
      if String.eqb k "__proto__" then "[object Object]"
      else "function " +:+ (if String.eqb k "constructor" then "Object" else k)
           +:+ "() { [native code] }"
  end.

Definition is_str (v : value) (s : string) : bool :=
  match v with VStr s' => String.eqb s' s | VInherited _ => false end.

(** Keys that are array indices are enumerated first, in numeric order. *)
Fixpoint digits_value (s : string) (acc : N) : option N :=
  match s with
  | EmptyString => Some acc
  | String c r =>
      if JS.is_digit c
      then digits_value r (acc * 10 + N.of_nat (JS.code c - 48))%N
      else None
  end.

Definition array_index (k : string) : option N :=
  match k with
  | EmptyString => None
  | String c r =>
      if Ascii.eqb c "0" && JS.truthy r then None
      else match digits_value k 0%N with
           | Some n => if (n <=? 4294967294)%N then Some n else None
           | None => None
           end
  end.

Fixpoint replace_value (o : t) (k v : string) : t :=
  match o with
  | [] => []
  | (k', v') :: r =>
      if String.eqb k' k then (k', v) :: r else (k', v') :: replace_value r k v
  end.

Fixpoint insert_index (o : t) (n : N) (k v : string) : t :=
  match o with
  | [] => [(k, v)]
  | (k', v') :: r =>
      match array_index k' with
      | Some m => if (m <? n)%N then (k', v') :: insert_index r n k v
                  else (k, v) :: o
      | None => (k, v) :: o
      end
  end.

(** [o[k] = v] for a string [v]. Assigning a string to [__proto__] reaches the
    inherited setter, which ignores values that are not objects. *)
Definition set (o : t) (k v : string) : t :=
  if String.eqb k "__proto__" then o
  else match lookup o k with
       | Some _ => replace_value o k v
       | None =>
           match array_index k with
           | Some n => insert_index o n k v
           | None => (o ++ [(k, v)])%list
           end
       end.

Definition keys (o : t) : list string := map fst o.

End Obj.

(** ** JSON.stringify on objects with string values *)

Module JSON.

Definition hex_digit (n : nat) : string :=
  JS.chr (if Nat.ltb n 10 then 48 + n else 87 + n).

Definition quote_char (c : ascii) : string :=
  let n := JS.code c in
  if Nat.eqb n 34 then JS.chr 92 +:+ JS.chr 34
  else if Nat.eqb n 92 then JS.chr 92 +:+ JS.chr 92
  else if Nat.eqb n 8 then JS.chr 92 +:+ "b"
  else if Nat.eqb n 9 then JS.chr 92 +:+ "t"
  else if Nat.eqb n 10 then JS.chr 92 +:+ "n"
  else if Nat.eqb n 12 then JS.chr 92 +:+ "f"
  else if Nat.eqb n 13 then JS.chr 92 +:+ "r"
  else if Nat.ltb n 32
       then JS.chr 92 +:+ "u00" +:+ hex_digit (n / 16) +:+ hex_digit (n mod 16)
  else String c EmptyString.

Fixpoint quote_body (s : string) : string :=
  match s with
  | EmptyString => EmptyString
  | String c r => quote_char c +:+ quote_body r
  end.

Definition quote (s : string) : string := JS.dquote +:+ quote_body s +:+ JS.dquote.

Definition stringify (o : Obj.t) : string :=
  "{" +:+ JS.join "," (map (fun kv => quote (fst kv) +:+ ":" +:+ quote (snd kv)) o) +:+ "}".

End JSON.

(** ** The DOM built by jsdom *)

Module DOM.

(** Elements of the SVG namespace differ from HTML elements in one way that the
    converter observes: their [className] is an object, not a string. *)
Inductive namespace := HTML | SVG.

Inductive node :=
  | Element (ns : namespace) (tagName : string)
            (attributes : list (string * string)) (childNodes : list node)
  | Text (data : string)
  | Comment (data : string)
  | Other.

Definition nodeType (n : node) : option nat :=
  match n with
  | Element _ _ _ _ => Some 1
  | Text _ => Some 3
  | Comment _ => Some 8
  | Other => None
  end.

Definition is_element (n : node) : bool :=
  match n with Element _ _ _ _ => true | _ => false end.

(** The data of the text nodes below a node, in tree order. *)
Fixpoint descendant_text (n : node) : string :=
  match n with
  | Element _ _ _ kids =>
      fold_right (fun k acc => descendant_text k +:+ acc) EmptyString kids
  | Text d => d
  | Comment _ | Other => EmptyString
  end.

Definition textContent (n : node) : string :=
  match n with
  | Comment d => d
  | _ => descendant_text n
  end.

Fixpoint getAttribute (attrs : list (string * string)) (name : string) : option string :=
  match attrs with
  | [] => None
  | (k, v) :: r => if String.eqb k name then Some v else getAttribute r name
  end.

Definition hasAttribute (attrs : list (string * string)) (name : string) : bool :=
  match getAttribute attrs name with Some _ => true | None => false end.

(** [el.id]: the id attribute, or the empty string. *)
Definition id_of (attrs : list (string * string)) : string :=
  default EmptyString (getAttribute attrs "id").

(** [el.className]: [Some] of the class attribute (or of the empty string) on
    an HTML element; [None] stands for the object an SVG element answers. *)
Definition className_of (ns : namespace) (attrs : list (string * string)) : option string :=
  match ns with
  | HTML => Some (default EmptyString (getAttribute attrs "class"))
  | SVG => None
  end.

(** [el.children]: the child nodes that are elements. *)
Definition children (kids : list node) : list node := List.filter is_element kids.

(** An element is known by its place: the child indices leading to it from the
    document element. *)
Definition path := list nat.

(** The elements below the children [l] of the element at [p], the first of
    which is child number [i]. *)
Definition elements_from_children (elements_from : path -> node -> list (path * node))
    (p : path) : nat -> list node -> list (path * node) :=
  fix go (i : nat) (l : list node) : list (path * node) :=
    match l with
    | [] => []
    | k :: r => (elements_from (p ++ [i]) k ++ go (S i) r)%list
    end.

Fixpoint elements_from (p : path) (n : node) : list (path * node) :=
  match n with
  | Element _ _ _ kids => (p, n) :: elements_from_children elements_from p 0 kids
  | _ => []
  end.

(** The node at a path. *)
Fixpoint node_at (n : node) (p : path) : option node :=
  match p with
  | [] => Some n
  | i :: r =>
      match n with
      | Element _ _ _ kids =>
          match nth_error kids i with
          | Some k => node_at k r
          | None => None
          end
      | _ => None
      end
  end.

(** All elements of a document, in document order. *)
Definition all_elements (documentElement : node) : list (path * node) :=
  elements_from [] documentElement.

Definition tag_of (n : node) : string :=
  match n with Element _ t _ _ => t | _ => EmptyString end.
Definition attributes_of (n : node) : list (string * string) :=
  match n with Element _ _ a _ => a | _ => [] end.
Definition ns_of (n : node) : namespace :=
  match n with Element ns _ _ _ => ns | _ => HTML end.
Definition childNodes_of (n : node) : list node :=
  match n with Element _ _ _ kids => kids | _ => [] end.

(** [document.body]: the first child of the html element that is a body or a
    frameset element. *)
Definition body (documentElement : node) : option node :=
  match documentElement with
  | Element HTML t _ kids =>
      if String.eqb (JS.toLowerCase t) "html"
      then List.find (fun k =>
             match k with
             | Element HTML t' _ _ =>
                 String.eqb (JS.toLowerCase t') "body"
                 || String.eqb (JS.toLowerCase t') "frameset"
             | _ => false
             end) kids
      else None
  | _ => None
  end.

(** The selectors the converter passes to [querySelectorAll]. *)
Inductive selector :=
  | TagSelector (tag : string)
  | RoleSelector (role : string)
  | HasClassSelector.

Definition matches (sel : selector) (n : node) : bool :=
  match n with
  | Element _ t attrs _ =>
      match sel with
      | TagSelector tag => String.eqb (JS.toLowerCase t) tag
      | RoleSelector r =>
          match getAttribute attrs "role" with
          | Some v => String.eqb v r
          | None => false
          end
      | HasClassSelector => hasAttribute attrs "class"
      end
  | _ => false
  end.

Definition querySelectorAll (documentElement : node) (sel : selector) : list (path * node) :=
  List.filter (fun pn => matches sel (snd pn)) (all_elements documentElement).

End DOM.
Import DOM.

(** ** Module constants of html-to-react.js *)

(** HTML attributes that need transformation for JSX. *)
Definition JSX_ATTR_MAP : Obj.t :=
  [ ("class", "className"); ("for", "htmlFor"); ("tabindex", "tabIndex");
    ("readonly", "readOnly"); ("maxlength", "maxLength"); ("minlength", "minLength");
    ("cellpadding", "cellPadding"); ("cellspacing", "cellSpacing");
    ("rowspan", "rowSpan"); ("colspan", "colSpan"); ("usemap", "useMap");
    ("frameborder", "frameBorder"); ("contenteditable", "contentEditable");
    ("crossorigin", "crossOrigin"); ("datetime", "dateTime"); ("enctype", "encType");
    ("formaction", "formAction"); ("formenctype", "formEncType");
    ("formmethod", "formMethod"); ("formnovalidate", "formNoValidate");
    ("formtarget", "formTarget"); ("hreflang", "hrefLang"); ("inputmode", "inputMode");
    ("srcdoc", "srcDoc"); ("srcset", "srcSet"); ("autocomplete", "autoComplete");
    ("autofocus", "autoFocus"); ("autoplay", "autoPlay") ].

(** Self-closing tags in JSX. *)
Definition SELF_CLOSING_TAGS : list string :=
  [ "area"; "base"; "br"; "col"; "embed"; "hr"; "img"; "input";
    "link"; "meta"; "param"; "source"; "track"; "wbr" ].

(** Tags to skip. *)
Definition SKIP_TAGS : list string := [ "script"; "style"; "noscript"; "link"; "meta" ].

(** [set.has(x)] for the two sets above. *)
Definition has (set : list string) (x : string) : bool := existsb (String.eqb x) set.

(** ** Converter options *)

Record Options := {
  preserveComments : bool;
  generateTypeScript : bool;
  componentPrefix : string;
  wrapWithFragment : bool;
  extractComponents : bool;
  minComponentDepth : nat
}.

(** The [options] argument of the constructor: each field may be left out. *)
Record OptionsArg := {
  arg_preserveComments : option bool;
  arg_generateTypeScript : option bool;
  arg_componentPrefix : option string;
  arg_wrapWithFragment : option bool;
  arg_extractComponents : option bool;
  arg_minComponentDepth : option nat
}.

Definition no_options : OptionsArg := Build_OptionsArg None None None None None None.

(** The defaults of the constructor, overridden by what the caller gives. *)
Definition merge_options (o : OptionsArg) : Options := {|
  preserveComments := default false (arg_preserveComments o);
  generateTypeScript := default true (arg_generateTypeScript o);
  componentPrefix := default EmptyString (arg_componentPrefix o);
  wrapWithFragment := default true (arg_wrapWithFragment o);
  extractComponents := default true (arg_extractComponents o);
  minComponentDepth := default 2 (arg_minComponentDepth o)
|}.

(** ** Style strings *)

(** [property.replace(/-([a-z])/g, (_, letter) => letter.toUpperCase())] *)
Fixpoint camelCase (s : string) : string :=
  match s with
  | EmptyString => EmptyString
  | String c r =>
      if Ascii.eqb c "-"
      then match r with
           | String l r' =>
               if JS.is_lower l then String (JS.upper_char l) (camelCase r')
               else String c (camelCase r)
           | EmptyString => String c EmptyString
           end
      else String c (camelCase r)
  end.

(** One turn of the loop over the rules of a style string. *)
Definition add_rule (styleObj : Obj.t) (rule : string) : Obj.t :=
  match map JS.trim (JS.split ":" rule) with
  | property :: value :: _ =>
      if JS.truthy property && JS.truthy value
      then Obj.set styleObj (camelCase property) value
      else styleObj
  | _ => styleObj
  end.

(** Parse inline style string to object; [None] is [null]. *)
Definition parseStyleString (styleStr : string) : option Obj.t :=
  if negb (JS.truthy styleStr) then None
  else
    let rules := List.filter JS.truthy (JS.split ";" styleStr) in
    let styleObj := fold_left add_rule rules [] in
    if Nat.ltb 0 (length (Obj.keys styleObj)) then Some styleObj else None.

(** Values of a style object handed to [formatStyleObject]: strings, or
    numbers (integers in the model). *)
Inductive style_value :=
  | StyleStr (s : string)
  | StyleNum (n : Z).

Definition format_entry (kv : string * style_value) : string :=
  let formattedValue :=
    match snd kv with
    | StyleNum n => pretty n
    | StyleStr v => JS.dquote +:+ v +:+ JS.dquote
    end in
  fst kv +:+ ": " +:+ formattedValue.

(** Format style object as JSX string. *)
Definition formatStyleObject (styleObj : option (list (string * style_value))) : option string :=
  match styleObj with
  | None => None
  | Some o => Some ("{{ " +:+ JS.join ", " (map format_entry o) +:+ " }}")
  end.

(** The style object that [parseStyleString] builds, as [formatStyleObject]
    receives it. *)
Definition as_style_object (o : Obj.t) : list (string * style_value) :=
  map (fun kv => (fst kv, StyleStr (snd kv))) o.

(** ** Attributes *)

(** One turn of the loop of [buildAttributes]: what it pushes for [attr]. *)
Definition attribute_to_jsx (attr : string * string) : list string :=
  let name := JS.toLowerCase (fst attr) in
  let value := snd attr in
  (* Skip event handlers *)
  if JS.startsWith name "on" then []
  (* Skip data attributes that look like framework-specific *)
  else if JS.startsWith name "data-react" || JS.startsWith name "data-v-" then []
  else
    (* Transform attribute name *)
    let name := Obj.get_or JSX_ATTR_MAP name (Obj.VStr name) in
    if Obj.is_str name "style" then
      match parseStyleString value with
      | Some styleObj => ["style={" +:+ JSON.stringify styleObj +:+ "}"]
      | None => []
      end
    (* Handle boolean attributes *)
    else if String.eqb value EmptyString || Obj.is_str name value || String.eqb value "true"
    then [Obj.to_string name]
    else if Obj.is_str name "className"
    then ["className=" +:+ JS.dquote +:+ value +:+ JS.dquote]
    else [Obj.to_string name +:+ "=" +:+ JS.dquote +:+ value +:+ JS.dquote].

(** Build JSX attributes from element. *)
Definition buildAttributes (attributes : list (string * string)) : list string :=
  flat_map attribute_to_jsx attributes.

(** ** Elements to JSX *)

Definition escape_braces (text : string) : string :=
  JS.replace_char "}" "&#125;" (JS.replace_char "{" "&#123;" text).

(** Convert HTML element to JSX string. *)
Fixpoint elementToJSX (options : Options) (element : node) (indent : nat) : string :=
  let indentStr := JS.repeat "  " indent in
  match element with
  | Text _ =>
      let text := JS.trim (textContent element) in
      if negb (JS.truthy text) then EmptyString
      else escape_braces text
  | Comment _ =>
      if negb (preserveComments options) then EmptyString
      else indentStr +:+ "{/* " +:+ JS.trim (textContent element) +:+ " */}"
  | Other => EmptyString
  | Element _ tag attrs kids =>
      let tagName := JS.toLowerCase tag in
      if has SKIP_TAGS tagName then EmptyString
      else
        let attrs := buildAttributes attrs in
        let attrsStr :=
          if Nat.ltb 0 (length attrs) then " " +:+ JS.join " " attrs else EmptyString in
        if has SELF_CLOSING_TAGS tagName
        then indentStr +:+ "<" +:+ tagName +:+ attrsStr +:+ " />"
        else
          let children :=
            List.filter JS.truthy
              (map (fun child => elementToJSX options child (S indent)) kids) in
          match children with
          | [] =>
              let textContent := JS.trim (textContent element) in
              if JS.truthy textContent
              then indentStr +:+ "<" +:+ tagName +:+ attrsStr +:+ ">" +:+ textContent
                   +:+ "</" +:+ tagName +:+ ">"
              else indentStr +:+ "<" +:+ tagName +:+ attrsStr +:+ " />"
          | _ =>
              if Nat.eqb (length children) 1
                 && negb (JS.includes_char (hd EmptyString children) (ascii_of_nat 10))
                 && Nat.ltb (String.length (hd EmptyString children)) 60
              then indentStr +:+ "<" +:+ tagName +:+ attrsStr +:+ ">"
                   +:+ JS.trim (hd EmptyString children) +:+ "</" +:+ tagName +:+ ">"
              else JS.join JS.newline
                     ([indentStr +:+ "<" +:+ tagName +:+ attrsStr +:+ ">"]
                      ++ children
                      ++ [indentStr +:+ "</" +:+ tagName +:+ ">"])%list
          end
  end.

(** ** Component names *)

Definition is_separator (c : ascii) : bool :=
  Ascii.eqb c "-" || Ascii.eqb c "_" || JS.is_space c.

(** [str.replace(/[-_\s]+(.)?/g, (_, c) => c ? c.toUpperCase() : '')]: a run of
    separators is dropped and the character after it, if any, is upper-cased
    ([after_run] says that a run has just been read; the character after a run
    is no separator, hence no line terminator, and [.] matches it). *)
Fixpoint capitalize_after_separators (after_run : bool) (s : string) : string :=
  match s with
  | EmptyString => EmptyString
  | String c r =>
      if is_separator c then capitalize_after_separators true r
      else String (if after_run then JS.upper_char c else c)
                  (capitalize_after_separators false r)
  end.

(** [str.replace(/^(.)/, c => c.toUpperCase())] *)
Definition capitalize_first (s : string) : string :=
  match s with
  | EmptyString => EmptyString
  | String c r => if JS.is_line_terminator c then s else String (JS.upper_char c) r
  end.

(** Convert string to PascalCase. Exact on ASCII text, as [JS.upper_char]
    is. *)
Definition toPascalCase (str : string) : string :=
  JS.keep_alnum (capitalize_first (capitalize_after_separators false str)).

Definition semanticMap : Obj.t :=
  [ ("header", "Header"); ("nav", "Navigation"); ("main", "MainContent");
    ("aside", "Sidebar"); ("footer", "Footer"); ("article", "Article");
    ("section", "Section") ].

(** Suggest component name from element. The second component is the value of
    [componentCounter] after the call. *)
Definition suggestComponentName (element : node) (componentCounter : nat) : Obj.value * nat :=
  let attrs := attributes_of element in
  (* Try ID first *)
  if JS.truthy (id_of attrs) then (Obj.VStr (toPascalCase (id_of attrs)), componentCounter)
  else
    (* Try main class *)
    match className_of (ns_of element) attrs with
    | Some (String _ _ as className) =>
        let mainClass := hd EmptyString (JS.split " " className) in
        (Obj.VStr (toPascalCase mainClass), componentCounter)
    | _ =>
        (* Try tag name *)
        let tagName := JS.toLowerCase (tag_of element) in
        match Obj.get semanticMap tagName with
        | Some v => (v, componentCounter)
        | None =>
            (Obj.VStr ("Component" +:+ JS.of_nat (S componentCounter)), S componentCounter)
        end
    end.

(** ** Component boundaries *)

Module Boundary.
(** [role] is [None] on the boundaries of the class pass, which have no such
    property, and [Some r] on those of the semantic pass, [r] being what
    [getAttribute('role')] answered. [className] is [None] when the element
    answered an object. *)
Record t := {
  type : string;
  role : option (option string);
  id : string;
  className : option string;
  element : path * node;
  suggestedName : Obj.value
}.
End Boundary.

Definition semanticSelectors : list selector :=
  [ TagSelector "header"; TagSelector "nav"; TagSelector "main"; TagSelector "aside";
    TagSelector "footer"; TagSelector "article"; TagSelector "section";
    RoleSelector "banner"; RoleSelector "navigation"; RoleSelector "main";
    RoleSelector "complementary"; RoleSelector "contentinfo" ].

(** A class pattern: the regular expression, as its [test], and the name. *)
Record ClassPattern := {
  pattern : string -> bool;
  name : string
}.

(** [/word/i.test(s)]: [word], in lower case, occurs in [s] whatever the case. *)
Fixpoint occurs (word s : string) : bool :=
  JS.startsWith s word ||
  match s with
  | EmptyString => false
  | String _ r => occurs word r
  end.

Definition test_i (word : string) (s : string) : bool := occurs word (JS.toLowerCase s).

(** The optional group of [/nav(bar|igation)?/i] may match nothing, so the
    expression tests for [nav]. *)
Definition classPatterns : list ClassPattern :=
  [ {| pattern := test_i "header"; name := "Header" |};
    {| pattern := test_i "nav"; name := "Navigation" |};
    {| pattern := test_i "sidebar"; name := "Sidebar" |};
    {| pattern := test_i "footer"; name := "Footer" |};
    {| pattern := test_i "card"; name := "Card" |};
    {| pattern := test_i "modal"; name := "Modal" |};
    {| pattern := test_i "table"; name := "DataTable" |};
    {| pattern := test_i "form"; name := "Form" |};
    {| pattern := test_i "button"; name := "Button" |};
    {| pattern := test_i "panel"; name := "Panel" |};
    {| pattern := test_i "container"; name := "Container" |} ].

(** The semantic pass: one boundary for each element of each selector. *)
Definition semantic_boundary (el : path * node) (componentCounter : nat) : Boundary.t * nat :=
  let '(suggested, counter) := suggestComponentName (snd el) componentCounter in
  ({| Boundary.type := JS.toLowerCase (tag_of (snd el));
      Boundary.role := Some (getAttribute (attributes_of (snd el)) "role");
      Boundary.id := id_of (attributes_of (snd el));
      Boundary.className := className_of (ns_of (snd el)) (attributes_of (snd el));
      Boundary.element := el;
      Boundary.suggestedName := suggested |}, counter).

Definition semantic_pass (documentElement : node) (componentCounter : nat)
  : list Boundary.t * nat :=
  fold_left
    (fun '(boundaries, counter) el =>
       let '(b, counter') := semantic_boundary el counter in
       ((boundaries ++ [b])%list, counter'))
    (flat_map (querySelectorAll documentElement) semanticSelectors)
    ([], componentCounter).

(** [b.element === el || (b.className === className && b.type === tag)] *)
Definition same_boundary (el : path * node) (className : string) (b : Boundary.t) : bool :=
  bool_decide (fst (Boundary.element b) = fst el)
  || (match Boundary.className b with
      | Some c => String.eqb c className
      | None => false
      end
      && String.eqb (Boundary.type b) (JS.toLowerCase (tag_of (snd el)))).

(** The first pattern that tests true, at which the inner loop breaks. *)
Definition first_match (patterns : list ClassPattern) (className : string)
  : option ClassPattern :=
  List.find (fun p => pattern p className) patterns.

(** One turn of the loop over the elements that have a class attribute. *)
Definition class_step (patterns : list ClassPattern) (boundaries : list Boundary.t)
    (el : path * node) : list Boundary.t :=
  match className_of (ns_of (snd el)) (attributes_of (snd el)) with
  | None => boundaries
  | Some className =>
      match first_match patterns className with
      | None => boundaries
      | Some p =>
          (* Avoid duplicates *)
          let exists_ := existsb (same_boundary el className) boundaries in
          if negb exists_
          then (boundaries ++
                [ {| Boundary.type := JS.toLowerCase (tag_of (snd el));
                     Boundary.role := None;
                     Boundary.id := id_of (attributes_of (snd el));
                     Boundary.className := Some className;
                     Boundary.element := el;
                     Boundary.suggestedName := Obj.VStr (name p) |} ])%list
          else boundaries
      end
  end.

Definition class_pass (patterns : list ClassPattern) (documentElement : node)
    (boundaries : list Boundary.t) : list Boundary.t :=
  fold_left (class_step patterns) (querySelectorAll documentElement HasClassSelector) boundaries.

(** [extractComponentBoundaries] with the list of class patterns as a
    parameter; the method itself uses [classPatterns]. *)
Definition extractComponentBoundariesWith (patterns : list ClassPattern)
    (documentElement : node) (componentCounter : nat) : list Boundary.t * nat :=
  let '(boundaries, counter) := semantic_pass documentElement componentCounter in
  (class_pass patterns documentElement boundaries, counter).

(** ** Components and the component tree *)

Record Component := {
  comp_name : Obj.value;
  filename : string;
  content : string;
  jsx : string
}.

(** Generate React component from element. *)
Definition generateComponent (options : Options) (element : node) (componentName : Obj.value)
  : Component :=
  let jsx := elementToJSX options element 2 in
  let ext := if generateTypeScript options then "tsx" else "jsx" in
  let propsType := if generateTypeScript options then ": React.FC" else EmptyString in
  let n := Obj.to_string componentName in
  let component :=
    "import React from 'react';" +:+ JS.newline +:+
    JS.newline +:+
    "export const " +:+ n +:+ propsType +:+ " = () => {" +:+ JS.newline +:+
    "  return (" +:+ JS.newline +:+
    jsx +:+ JS.newline +:+
    "  );" +:+ JS.newline +:+
    "};" +:+ JS.newline +:+
    JS.newline +:+
    "export default " +:+ n +:+ ";" +:+ JS.newline in
  {| comp_name := componentName;
     filename := n +:+ "." +:+ ext;
     content := component;
     jsx := jsx |}.

Inductive Tree :=
  | TreeNode (tag : string) (id : option string) (className : option string)
             (children : list Tree).

(** The [buildTree] closure of [getComponentTree]; [None] is [null]. *)
Fixpoint buildTree (element : node) : option Tree :=
  match element with
  | Element ns tag attrs kids =>
      let tagName := JS.toLowerCase tag in
      if has SKIP_TAGS tagName then None
      else Some (TreeNode tagName
                   (if JS.truthy (id_of attrs) then Some (id_of attrs) else None)
                   (className_of ns attrs)
                   ((fix over_children (l : list node) : list Tree :=
                       match l with
                       | [] => []
                       | child :: r =>
                           if is_element child
                           then match buildTree child with
                                | Some t => t :: over_children r
                                | None => over_children r
                                end
                           else over_children r
                       end) kids))
  | _ => None
  end.

(** ** Exceptions and the file system *)

Inductive result (A : Type) :=
  | Ok (a : A)
  | Throw (message : string).
Arguments Ok {A} a.
Arguments Throw {A} message.

Definition bind {A B : Type} (r : result A) (k : A -> result B) : result B :=
  match r with
  | Ok a => k a
  | Throw m => Throw m
  end.

Notation "'let*' x := r 'in' k" := (bind r (fun x => k))
  (at level 10, x name, r at level 100, k at level 200).

Module FS.

(** Regular files with their contents, and directories. *)
Record t := {
  files : gmap string string;
  dirs : gset string
}.

Definition existsSync (fs : t) (p : string) : bool :=
  bool_decide (is_Some (files fs !! p)) || bool_decide (p ∈ dirs fs).

Definition readFileSync (fs : t) (p : string) : result string :=
  match files fs !! p with
  | Some c => Ok c
  | None =>
      if bool_decide (p ∈ dirs fs)
      then Throw "EISDIR: illegal operation on a directory, read"
      else Throw ("ENOENT: no such file or directory, open '" +:+ p +:+ "'")
  end.

(** [fs.mkdirSync(p, { recursive: true })]; the parents of a path are not part
    of the model. *)
Definition mkdirSync (fs : t) (p : string) : t :=
  {| files := files fs; dirs := {[ p ]} ∪ dirs fs |}.

(** [fs.writeFileSync(p, c)]: creates or overwrites the file; a directory
    cannot be written to. The parents of a path are not part of the model, so
    the failures of a write below a missing directory or below a regular file
    are left out. *)
Definition writeFileSync (fs : t) (p c : string) : result unit * t :=
  if bool_decide (p ∈ dirs fs)
  then (Throw ("EISDIR: illegal operation on a directory, open '" +:+ p +:+ "'"), fs)
  else (Ok tt, {| files := <[ p := c ]> (files fs); dirs := dirs fs |}).

End FS.

(** ** The converter object *)

Module Converter.
Record t := {
  options : Options;
  document : option node;
  extractedComponents : list Component;
  componentCounter : nat
}.
End Converter.

(** [new HTMLToReactConverter(options)] *)
Definition new_converter (options : OptionsArg) : Converter.t := {|
  Converter.options := merge_options options;
  Converter.document := None;
  Converter.extractedComponents := [];
  Converter.componentCounter := 0
|}.

Definition set_document (this : Converter.t) (d : node) : Converter.t := {|
  Converter.options := Converter.options this;
  Converter.document := Some d;
  Converter.extractedComponents := Converter.extractedComponents this;
  Converter.componentCounter := Converter.componentCounter this
|}.

Definition set_counter (this : Converter.t) (n : nat) : Converter.t := {|
  Converter.options := Converter.options this;
  Converter.document := Converter.document this;
  Converter.extractedComponents := Converter.extractedComponents this;
  Converter.componentCounter := n
|}.

(** Reading a property of [this.document] before a document is loaded. *)
Definition the_document (this : Converter.t) : result node :=
  match Converter.document this with
  | Some d => Ok d
  | None => Throw "Cannot read properties of null"
  end.

Record Conversion := {
  fullJSX : string;
  components : list Component;
  tree : option Tree;
  boundaries : list Boundary.t
}.

(** What a run of the command line leaves behind; [stderr] holds the lines
    that the script itself writes with [console.error]. *)
Record Run := {
  exitCode : nat;
  fs_after : FS.t;
  stderr : list string
}.

(** The variables of the command line, [None] being [undefined]. *)
Record Args := {
  inputPath : option string;
  outputDir : option string;
  projectName : option string;
  pageName : option string;
  showTree : bool
}.

Definition set_inputPath (a : Args) (v : option string) : Args :=
  {| inputPath := v; outputDir := outputDir a; projectName := projectName a;
     pageName := pageName a; showTree := showTree a |}.
Definition set_outputDir (a : Args) (v : option string) : Args :=
  {| inputPath := inputPath a; outputDir := v; projectName := projectName a;
     pageName := pageName a; showTree := showTree a |}.
Definition set_projectName (a : Args) (v : option string) : Args :=
  {| inputPath := inputPath a; outputDir := outputDir a; projectName := v;
     pageName := pageName a; showTree := showTree a |}.
Definition set_pageName (a : Args) (v : option string) : Args :=
  {| inputPath := inputPath a; outputDir := outputDir a; projectName := projectName a;
     pageName := v; showTree := showTree a |}.
Definition set_showTree (a : Args) : Args :=
  {| inputPath := inputPath a; outputDir := outputDir a; projectName := projectName a;
     pageName := pageName a; showTree := true |}.

(** The loop over [process.argv.slice(2)]; [None] when [--help] exits. A flag
    that takes a value reads [args[++i]], which is [undefined] past the end. *)
Fixpoint parse_args (args : list string) (a : Args) : option Args :=
  match args with
  | [] => Some a
  | flag :: rest =>
      let with_value (set : Args -> option string -> Args) :=
        match rest with
        | [] => Some (set a None)
        | v :: rest' => parse_args rest' (set a (Some v))
        end in
      if String.eqb flag "--input" || String.eqb flag "-i" then with_value set_inputPath
      else if String.eqb flag "--output" || String.eqb flag "-o" then with_value set_outputDir
      else if String.eqb flag "--project" then with_value set_projectName
      else if String.eqb flag "--page" then with_value set_pageName
      else if String.eqb flag "--tree" then parse_args rest (set_showTree a)
      else if String.eqb flag "--help" || String.eqb flag "-h" then None
      else parse_args rest a
  end.

(** ** Methods that read the document, and the module functions *)

Section Pipeline.

(** [new JSDOM(html).window.document.documentElement], from the jsdom library. *)
Variable JSDOM : string -> node.
(** [path.join], from Node. *)
Variable path_join : list string -> string.
(** [path.resolve(SKILL_DIR, '../../../projects')] *)
Variable PROJECTS_DIR : string.

(** Load HTML from string. *)
Definition loadFromString (this : Converter.t) (html : string) : Converter.t :=
  set_document this (JSDOM html).

(** Load HTML from file. *)
Definition loadFromFile (fs : FS.t) (this : Converter.t) (htmlPath : string)
  : result Converter.t :=
  if negb (FS.existsSync fs htmlPath)
  then Throw ("HTML file not found: " +:+ htmlPath)
  else
    let* html := FS.readFileSync fs htmlPath in
    Ok (loadFromString this html).

(** Convert full document body to JSX. *)
Definition convertBody (this : Converter.t) : result string :=
  let* d := the_document this in
  match body d with
  | None => Ok EmptyString
  | Some b => Ok (elementToJSX (Converter.options this) b 0)
  end.

(** Extract semantic component boundaries; the counter of [this] advances. *)
Definition extractComponentBoundaries (this : Converter.t)
  : result (list Boundary.t * Converter.t) :=
  let* d := the_document this in
  let '(bs, counter) :=
    extractComponentBoundariesWith classPatterns d (Converter.componentCounter this) in
  Ok (bs, set_counter this counter).

(** Extract and generate all components. *)
Definition extractAllComponents (this : Converter.t)
  : result (list Component * Converter.t) :=
  let* r := extractComponentBoundaries this in
  Ok (map (fun boundary =>
             generateComponent (Converter.options this)
               (snd (Boundary.element boundary)) (Boundary.suggestedName boundary))
          (fst r),
      snd r).

(** Get component tree structure. *)
Definition getComponentTree (this : Converter.t) : result (option Tree) :=
  let* d := the_document this in
  match body d with
  | None => Ok None
  | Some b => Ok (buildTree b)
  end.

(** The object that [convertHTMLToReact] returns; its properties are evaluated
    in the order in which they are written. *)
Definition conversion_of (converter : Converter.t) : result Conversion :=
  let* fullJSX := convertBody converter in
  let* cs := extractAllComponents converter in
  let* tree := getComponentTree (snd cs) in
  let* bs := extractComponentBoundaries (snd cs) in
  Ok {| fullJSX := fullJSX; components := fst cs; tree := tree; boundaries := fst bs |}.

(** Convert HTML file to React components. *)
Definition convertHTMLToReact (fs : FS.t) (htmlPath : string) (options : OptionsArg)
  : result Conversion :=
  let converter := new_converter options in
  let* converter := loadFromFile fs converter htmlPath in
  conversion_of converter.

(** The loop of [writeComponents]: the paths written so far, then the outcome
    and the file system at the end or at the first failure. *)
Fixpoint write_each (fs : FS.t) (components : list Component) (outputDir : string)
    (written : list string) : result (list string) * FS.t :=
  match components with
  | [] => (Ok written, fs)
  | component :: rest =>
      let filePath := path_join [outputDir; filename component] in
      match FS.writeFileSync fs filePath (content component) with
      | (Ok _, fs') => write_each fs' rest outputDir (written ++ [filePath])%list
      | (Throw m, fs') => (Throw m, fs')
      end
  end.

(** Write components to output directory. *)
Definition writeComponents (fs : FS.t) (components : list Component) (outputDir : string)
  : result (list string) * FS.t :=
  let fs := if negb (FS.existsSync fs outputDir) then FS.mkdirSync fs outputDir else fs in
  write_each fs components outputDir [].

Definition error_line (message : string) : string :=
  JS.chr 27 +:+ "[31mError:" +:+ JS.chr 27 +:+ "[0m " +:+ message.

Definition truthy_arg (v : option string) : bool :=
  match v with Some s => JS.truthy s | None => false end.

(** Handle project-based paths. *)
Definition project_paths (a : Args) : Args :=
  match projectName a with
  | Some (String _ _ as projectName) =>
      let projectDir := path_join [PROJECTS_DIR; projectName] in
      let a :=
        match pageName a with
        | Some (String _ _ as pageName) =>
            set_inputPath a
              (Some (path_join [projectDir; "references"; "html"; pageName +:+ ".html"]))
        | _ => a
        end in
      if truthy_arg (outputDir a) then a
      else set_outputDir a
             (Some (path_join [projectDir; "prototype"; "src"; "components"; "extracted"]))
  | _ => a
  end.

(** Printing the first ten boundaries calls [boundary.className.split] whenever
    [boundary.className] is truthy, which fails on an object. *)
Definition print_boundaries (bs : list Boundary.t) : result unit :=
  if existsb (fun b => match Boundary.className b with None => true | Some _ => false end)
       (firstn 10 bs)
  then Throw "boundary.className.split is not a function"
  else Ok tt.

(** The body of the [try] block; standard output is left out of the model. *)
Definition try_block (fs : FS.t) (a : Args) (inputPath : string) : result nat * FS.t :=
  match convertHTMLToReact fs inputPath no_options with
  | Throw m => (Throw m, fs)
  | Ok result =>
      if showTree a then (Ok 0, fs)
      else
        match print_boundaries (boundaries result) with
        | Throw m => (Throw m, fs)
        | Ok _ =>
            match outputDir a with
            | Some (String _ _ as outputDir) =>
                match writeComponents fs (components result) outputDir with
                | (Ok _, fs') => (Ok 0, fs')
                | (Throw m, fs') => (Throw m, fs')
                end
            | _ => (Ok 0, fs)
            end
        end
  end.

(** CLI execution. *)
Definition main (fs : FS.t) (argv : list string) : Run :=
  match parse_args argv (Build_Args None None None None false) with
  | None => {| exitCode := 0; fs_after := fs; stderr := [] |}
  | Some a =>
      let a := project_paths a in
      match inputPath a with
      | Some (String _ _ as inputPath) =>
          match try_block fs a inputPath with
          | (Ok code, fs') => {| exitCode := code; fs_after := fs'; stderr := [] |}
          | (Throw m, fs') =>
              {| exitCode := 1; fs_after := fs'; stderr := [error_line m] |}
          end
      | _ =>
          {| exitCode := 1; fs_after := fs;
             stderr := [error_line "--input is required"] |}
      end
  end.

End Pipeline.

(** ** Converter instances on the heap *)

(** The methods above take [this] and return what they leave of it. A caller
    holds a reference to an instance, and the instances that earlier calls made
    stay on the heap: here the same calls are made on a reference. *)
Module Heap.

(** The converter instances made so far, a [list Converter.t]; a reference to
    an instance is its position. *)
Definition t : Type := list Converter.t.

(** [new HTMLToReactConverter(options)]: a new object. *)
Definition new (options : OptionsArg) (heap : list Converter.t) : nat * list Converter.t :=
  (length heap, (heap ++ [new_converter options])%list).

(** [converter.method(...)] for a method that assigns to fields of [this]: the
    instance is read from the heap, and what the method leaves of it is stored
    back. *)
Definition call {A : Type} (converter : nat)
    (method : Converter.t -> result (A * Converter.t)) (heap : list Converter.t) : result A * list Converter.t :=
  match heap !! converter with
  | Some this =>
      match method this with
      | Ok (a, this') => (Ok a, <[converter := this']> heap)
      | Throw m => (Throw m, heap)
      end
  | None => (Throw "Cannot read properties of undefined", heap)
  end.

(** [converter.method(...)] for a method that only reads the fields of [this]. *)
Definition read {A : Type} (converter : nat)
    (method : Converter.t -> result A) (heap : list Converter.t) : result A * list Converter.t :=
  match heap !! converter with
  | Some this => (method this, heap)
  | None => (Throw "Cannot read properties of undefined", heap)
  end.

Section Calls.

Variable JSDOM : string -> node.

(** Convert HTML file to React components: the converter is a new instance,
    and the four properties of the object returned are evaluated on it in the
    order in which they are written. *)
Definition convertHTMLToReact (fs : FS.t) (htmlPath : string) (options : OptionsArg)
    (heap : list Converter.t) : result Conversion * list Converter.t :=
  let '(converter, heap) := new options heap in
  match call converter
          (fun this => let* this' := loadFromFile JSDOM fs this htmlPath in Ok (tt, this'))
          heap with
  | (Throw m, heap) => (Throw m, heap)
  | (Ok _, heap) =>
  match read converter convertBody heap with
  | (Throw m, heap) => (Throw m, heap)
  | (Ok jsx_of_body, heap) =>
  match call converter extractAllComponents heap with
  | (Throw m, heap) => (Throw m, heap)
  | (Ok cs, heap) =>
  match read converter getComponentTree heap with
  | (Throw m, heap) => (Throw m, heap)
  | (Ok t, heap) =>
  match call converter extractComponentBoundaries heap with
  | (Throw m, heap) => (Throw m, heap)
  | (Ok bs, heap) =>
      (Ok {| fullJSX := jsx_of_body; components := cs; tree := t; boundaries := bs |},
       heap)
  end end end end end.

End Calls.

End Heap.

(** ** Notions used to state the properties *)

(** An element that [elementToJSX] and [buildTree] skip. *)
Definition skipped (n : node) : bool :=
  match n with
  | Element _ tag _ _ => has SKIP_TAGS (JS.toLowerCase tag)
  | _ => false
  end.

(** The tags of a component tree, parents before children, in order. *)
Fixpoint tree_tags (t : Tree) : list string :=
  match t with
  | TreeNode tag _ _ ch => tag :: flat_map tree_tags ch
  end.

(** The document without its skipped elements. *)
Fixpoint prune (n : node) : node :=
  match n with
  | Element ns tag attrs kids =>
      Element ns tag attrs
        ((fix over (l : list node) : list node :=
            match l with
            | [] => []
            | k :: r => if skipped k then over r else prune k :: over r
            end) kids)
  | _ => n
  end.

(** The document in which every skipped element is reduced to one text node
    holding the text below it: no attribute and no element is left there. *)
Fixpoint text_only_skipped (n : node) : node :=
  match n with
  | Element ns tag attrs kids =>
      if has SKIP_TAGS (JS.toLowerCase tag)
      then Element ns tag [] [Text (descendant_text n)]
      else Element ns tag attrs (map text_only_skipped kids)
  | _ => n
  end.

(** The emitted JSX as a tree, before it is laid out as text: the elements
    with their tag, their attributes and their children, the text and the
    comments. [text] is the trimmed text content of the element, which is
    printed when no child prints anything. *)
Inductive JSX :=
  | JSXElement (tagName : string) (attrs : list string) (selfClosing : bool)
               (children : list JSX) (text : string)
  | JSXText (text : string)
  | JSXComment (text : string)
  | JSXNothing.

Fixpoint to_jsx (options : Options) (element : node) : JSX :=
  match element with
  | Text _ =>
      let text := JS.trim (textContent element) in
      if negb (JS.truthy text) then JSXNothing else JSXText (escape_braces text)
  | Comment _ =>
      if negb (preserveComments options) then JSXNothing
      else JSXComment (JS.trim (textContent element))
  | Other => JSXNothing
  | Element _ tag attrs kids =>
      let tagName := JS.toLowerCase tag in
      if has SKIP_TAGS tagName then JSXNothing
      else if has SELF_CLOSING_TAGS tagName
      then JSXElement tagName (buildAttributes attrs) true [] EmptyString
      else JSXElement tagName (buildAttributes attrs) false
             (map (to_jsx options) kids) (JS.trim (textContent element))
  end.

(** The layout of [elementToJSX]. *)
Fixpoint print_jsx (j : JSX) (indent : nat) : string :=
  let indentStr := JS.repeat "  " indent in
  match j with
  | JSXNothing => EmptyString
  | JSXText text => text
  | JSXComment text => indentStr +:+ "{/* " +:+ text +:+ " */}"
  | JSXElement tagName attrs selfClosing children text =>
      let attrsStr :=
        if Nat.ltb 0 (length attrs) then " " +:+ JS.join " " attrs else EmptyString in
      if selfClosing
      then indentStr +:+ "<" +:+ tagName +:+ attrsStr +:+ " />"
      else
        let children :=
          List.filter JS.truthy (map (fun child => print_jsx child (S indent)) children) in
        match children with
        | [] =>
            if JS.truthy text
            then indentStr +:+ "<" +:+ tagName +:+ attrsStr +:+ ">" +:+ text
                 +:+ "</" +:+ tagName +:+ ">"
            else indentStr +:+ "<" +:+ tagName +:+ attrsStr +:+ " />"
        | _ =>
            if Nat.eqb (length children) 1
               && negb (JS.includes_char (hd EmptyString children) (ascii_of_nat 10))
               && Nat.ltb (String.length (hd EmptyString children)) 60
            then indentStr +:+ "<" +:+ tagName +:+ attrsStr +:+ ">"
                 +:+ JS.trim (hd EmptyString children) +:+ "</" +:+ tagName +:+ ">"
            else JS.join JS.newline
                   ([indentStr +:+ "<" +:+ tagName +:+ attrsStr +:+ ">"]
                    ++ children
                    ++ [indentStr +:+ "</" +:+ tagName +:+ ">"])%list
        end
  end.

(** The tags of the elements of an emitted JSX tree. *)
Fixpoint jsx_tags (j : JSX) : list string :=
  match j with
  | JSXElement tagName _ _ children _ => tagName :: flat_map jsx_tags children
  | _ => []
  end.

Fixpoint skip_free (n : node) : bool :=
  match n with
  | Element _ tag _ kids => negb (has SKIP_TAGS (JS.toLowerCase tag)) && forallb skip_free kids
  | _ => true
  end.

(** A component tree with the tag names, ids, class names and child order of
    the elements of a document. *)
Inductive same_shape : node -> Tree -> Prop :=
  | same_shape_element ns tag attrs kids ch :
      Forall2 same_shape (children kids) ch ->
      same_shape (Element ns tag attrs kids)
        (TreeNode (JS.toLowerCase tag)
           (if JS.truthy (id_of attrs) then Some (id_of attrs) else None)
           (className_of ns attrs) ch).

(** Two documents with identical tag names, attribute sets and child ordering
    (text and comments aside). *)
Inductive same_structure : node -> node -> Prop :=
  | same_structure_element ns1 ns2 tag1 tag2 attrs1 attrs2 kids1 kids2 :
      JS.toLowerCase tag1 = JS.toLowerCase tag2 ->
      (forall a, In a attrs1 <-> In a attrs2) ->
      Forall2 same_structure (children kids1) (children kids2) ->
      same_structure (Element ns1 tag1 attrs1 kids1) (Element ns2 tag2 attrs2 kids2).

(** *** Attributes, in the words of the specification *)

(** Event-handler and framework-internal names. *)
Definition stripped (name : string) : bool :=
  JS.startsWith name "on" || JS.startsWith name "data-react" || JS.startsWith name "data-v-".

(** An attribute preserved with its value. *)
Definition preserved (name value : string) : string :=
  name +:+ "=" +:+ JS.dquote +:+ value +:+ JS.dquote.

(** The idiomatic name: the entry of the fixed map, or the name itself. *)
Definition jsx_name (name : string) : string :=
  default name (Obj.lookup JSX_ATTR_MAP name).

(** What the specification says of one attribute. *)
Definition claimed_attribute (attr : string * string) : list string :=
  let name := JS.toLowerCase (fst attr) in
  if stripped name then []
  else if String.eqb name "style"
  then match parseStyleString (snd attr) with
       | Some styleObj => ["style={" +:+ JSON.stringify styleObj +:+ "}"]
       | None => []
       end
  else [preserved (jsx_name name) (snd attr)].

(** The same with the rule for boolean attributes: a value that is empty, equal
    to the emitted name or [true] is not written. *)
Definition boolean_value (emitted_name value : string) : bool :=
  String.eqb value EmptyString || String.eqb emitted_name value || String.eqb value "true".

Definition expected_attribute (attr : string * string) : list string :=
  let name := JS.toLowerCase (fst attr) in
  if stripped name then []
  else if String.eqb name "style"
  then match parseStyleString (snd attr) with
       | Some styleObj => ["style={" +:+ JSON.stringify styleObj +:+ "}"]
       | None => []
       end
  else if boolean_value (jsx_name name) (snd attr) then [jsx_name name]
  else [preserved (jsx_name name) (snd attr)].

(** *** Style declarations, in the words of the specification *)

(** An inline style string made of semicolon-separated [property: value]
    declarations. *)
Definition declaration_text (d : string * string) : string := fst d +:+ ":" +:+ snd d.

Definition style_text (declarations : list (string * string)) : string :=
  JS.join ";" (map declaration_text declarations).

(** A declaration whose property and value hold neither separator and are not
    blank. *)
Definition plain_declaration (d : string * string) : Prop :=
  JS.includes_char (fst d) ";" = false /\ JS.includes_char (fst d) ":" = false
  /\ JS.includes_char (snd d) ";" = false /\ JS.includes_char (snd d) ":" = false
  /\ JS.truthy (JS.trim (fst d)) = true /\ JS.truthy (JS.trim (snd d)) = true.

(** The map with, for each declaration in turn, the camel-cased property bound
    to the trimmed value; [null] when it has no entry. *)
Definition expected_style (declarations : list (string * string)) : option Obj.t :=
  match fold_left
          (fun o d => Obj.set o (camelCase (JS.trim (fst d))) (JS.trim (snd d)))
          declarations [] with
  | [] => None
  | o => Some o
  end.

(** *** Boundaries of the same element *)

(** Two boundaries that agree on everything but the suggested name. *)
Definition same_element (b b' : Boundary.t) : Prop :=
  Boundary.element b' = Boundary.element b
  /\ Boundary.type b' = Boundary.type b
  /\ Boundary.role b' = Boundary.role b
  /\ Boundary.id b' = Boundary.id b
  /\ Boundary.className b' = Boundary.className b.

(** A boundary whose fields are those of an element of the document. *)
Definition boundary_of (documentElement : node) (b : Boundary.t) : Prop :=
  In (Boundary.element b) (all_elements documentElement)
  /\ Boundary.className b
     = className_of (ns_of (snd (Boundary.element b)))
         (attributes_of (snd (Boundary.element b)))
  /\ Boundary.type b = JS.toLowerCase (tag_of (snd (Boundary.element b))).

(** The first match of a class name is kept by the larger list. *)
Definition keeps_first_match (patterns patterns' : list ClassPattern) (b : Boundary.t) : Prop :=
  forall c p, Boundary.className b = Some c ->
              first_match patterns c = Some p -> first_match patterns' c = Some p.

(** What relates the boundaries found so far under a list of patterns and under
    a larger one. *)
Definition simulates (patterns patterns' : list ClassPattern)
    (found found' : list Boundary.t) : Prop :=
  (forall b, In b found ->
     exists b', In b' found' /\ same_element b b'
                /\ (keeps_first_match patterns patterns' b -> b' = b))
  /\ (forall b' c, In b' found' -> Boundary.className b' = Some c ->
        first_match patterns c <> None ->
        exists b, In b found /\ Boundary.className b = Some c
                  /\ Boundary.type b = Boundary.type b').

(** *** Class names, in the words of the DOM *)

(** ASCII whitespace, which separates the class names of a class attribute. *)
Definition is_ascii_whitespace (c : ascii) : bool :=
  let n := JS.code c in
  Nat.eqb n 9 || Nat.eqb n 10 || Nat.eqb n 12 || Nat.eqb n 13 || Nat.eqb n 32.

Fixpoint split_whitespace (s : string) : string * list string :=
  match s with
  | EmptyString => (EmptyString, [])
  | String c r =>
      let '(piece, rest) := split_whitespace r in
      if is_ascii_whitespace c then (EmptyString, piece :: rest)
      else (String c piece, rest)
  end.

(** The class names of an element, in order. *)
Definition class_names (className : string) : list string :=
  let '(piece, rest) := split_whitespace className in
  List.filter JS.truthy (piece :: rest).

(** A page with one card, and the boundary of that card. *)
Definition card_page : node :=
  Element HTML "HTML" []
    [ Element HTML "HEAD" [] [];
      Element HTML "BODY" [] [ Element HTML "DIV" [("class", "card")] [Text "x"] ] ].

Definition card_pattern : ClassPattern := {| pattern := test_i "card"; name := "Card" |}.

(** A pattern that the class name of the card matches as well. *)
Definition bar_pattern : ClassPattern := {| pattern := test_i "ar"; name := "Bar" |}.

Definition card_boundary : Boundary.t :=
  {| Boundary.type := "div";
     Boundary.role := None;
     Boundary.id := EmptyString;
     Boundary.className := Some "card";
     Boundary.element := ([1; 0], Element HTML "DIV" [("class", "card")] [Text "x"]);
     Boundary.suggestedName := Obj.VStr "Card" |}.

(** *** Fixtures for the examples *)

(** [path.join] on segments that need no normalisation. *)
Definition posix_join (parts : list string) : string := JS.join "/" parts.

(** A stand-in for jsdom, exact on the page of the examples: a header in the
    body; any other text is read as the text of the body. *)
Definition fixture_JSDOM (html : string) : node :=
  Element HTML "HTML" []
    [ Element HTML "HEAD" [] [];
      Element HTML "BODY" []
        [ if String.eqb html "<header>Hi</header>"
          then Element HTML "HEADER" [] [Text "Hi"]
          else Text html ] ].

Definition header_component : Component :=
  generateComponent (merge_options no_options)
    (Element HTML "HEADER" [] [Text "Hi"]) (Obj.VStr "Header").

Definition fs_with_old_header : FS.t :=
  {| FS.files := {[ "out/Header.tsx" := "old contents" ]}; FS.dirs := {[ "out" ]} |}.

Definition fs_with_page : FS.t :=
  {| FS.files := {[ "page.html" := "<header>Hi</header>" ]}; FS.dirs := ∅ |}.

(** *** The conversion of a document by a new instance *)

(** What a converter that has served no other call returns for a document: the
    counter of unnamed components starts at 0 for the components and goes on
    from there for the boundaries. *)
Definition fresh_conversion (options : OptionsArg) (d : node) : Conversion :=
  let first := extractComponentBoundariesWith classPatterns d 0 in
  let second := extractComponentBoundariesWith classPatterns d (snd first) in
  {| fullJSX :=
       match body d with
       | Some b => elementToJSX (merge_options options) b 0
       | None => EmptyString
       end;
     components :=
       map (fun boundary =>
              generateComponent (merge_options options)
                (snd (Boundary.element boundary)) (Boundary.suggestedName boundary))
           (fst first);
     tree := match body d with Some b => buildTree b | None => None end;
     boundaries := fst second |}.

(** An instance that an earlier conversion has used. *)
Definition used_converter : Converter.t :=
  set_counter
    (set_document (new_converter no_options) (Element HTML "HTML" [] [])) 7.

(** *** Notions for the properties of the remaining code *)

(** A code unit of ASCII text, on which the case mapping of the model is that
    of [toUpperCase]. *)
Definition is_ascii (c : ascii) : bool := Nat.ltb (JS.code c) 128.

(** Every character of a string satisfies a test. *)
Fixpoint all_chars (p : ascii -> bool) (s : string) : bool :=
  match s with
  | EmptyString => true
  | String c r => p c && all_chars p r
  end.

(** The number of characters of a string that satisfy a test. *)
Fixpoint count_chars (p : ascii -> bool) (s : string) : nat :=
  match s with
  | EmptyString => 0
  | String c r => (if p c then 1 else 0) + count_chars p r
  end.

(** The string begins with a lower-case letter. *)
Definition head_lower (s : string) : bool :=
  match s with
  | String c _ => JS.is_lower c
  | EmptyString => false
  end.

Definition is_comment (n : node) : bool :=
  match n with Comment _ => true | _ => false end.

(** The document without the comments below its elements. *)
Fixpoint strip_comments (n : node) : node :=
  match n with
  | Element ns tag attrs kids =>
      Element ns tag attrs
        ((fix over (l : list node) : list node :=
            match l with
            | [] => []
            | k :: r => if is_comment k then over r else strip_comments k :: over r
            end) kids)
  | _ => n
  end.

(** What the class pass compares when it avoids duplicates. *)
Definition boundary_key (b : Boundary.t) : option string * string :=
  (Boundary.className b, Boundary.type b).

(** The content that the loop of [writeComponents] leaves at a path: that of
    the last component written there. *)
Fixpoint last_content (path_of : Component -> string) (components : list Component)
    (p : string) : option string :=
  match components with
  | [] => None
  | c :: rest =>
      match last_content path_of rest p with
      | Some x => Some x
      | None => if String.eqb (path_of c) p then Some (content c) else None
      end
  end.

(** * Properties *)

(** ** Induction on nodes and trees *)

Lemma node_nested_ind (P : node -> Prop) :
  (forall ns tag attrs kids, Forall P kids -> P (Element ns tag attrs kids)) ->
  (forall d, P (Text d)) ->
  (forall d, P (Comment d)) ->
  P Other ->
  forall n, P n.
Proof.
  intros HE HT HC HO.
  fix IH 1.
  intros [ns tag attrs kids | d | d | ].
  - apply HE. induction kids as [|k r IHr]; constructor; [apply IH | exact IHr].
  - apply HT.
  - apply HC.
  - apply HO.
Qed.

(** ** Facts about strings *)

Lemma append_cons (c : ascii) (r s : string) : String c r +:+ s = String c (r +:+ s).
Proof. reflexivity. Qed.

Lemma append_empty_l (s : string) : EmptyString +:+ s = s.
Proof. reflexivity. Qed.

Lemma append_empty_r (s : string) : s +:+ EmptyString = s.
Proof. induction s as [|c r IH]; [reflexivity | now rewrite append_cons, IH]. Qed.

Lemma append_assoc (a b c : string) : (a +:+ b) +:+ c = a +:+ (b +:+ c).
Proof. induction a as [|x r IH]; [reflexivity | now rewrite !append_cons, IH]. Qed.

(** ** Skipped elements *)

Lemma descendant_text_text_only_skipped n :
  descendant_text (text_only_skipped n) = descendant_text n.
Proof.
  induction n as [ns tag attrs kids IH | | | ] using node_nested_ind; try reflexivity.
  cbn [text_only_skipped]. destruct (has SKIP_TAGS (JS.toLowerCase tag)).
  - cbn. now rewrite append_empty_r.
  - cbn [descendant_text]. induction IH as [|k r Hk _ IHr]; cbn; [reflexivity|].
    now rewrite Hk, IHr.
Qed.

Lemma elementToJSX_text_only_skipped options n :
  forall indent,
    elementToJSX options (text_only_skipped n) indent = elementToJSX options n indent.
Proof.
  induction n as [ns tag attrs kids IH | | | ] using node_nested_ind; try reflexivity.
  intros indent. cbn [text_only_skipped].
  destruct (has SKIP_TAGS (JS.toLowerCase tag)) eqn:Hskip.
  - cbn [elementToJSX]. now rewrite Hskip.
  - pose proof (descendant_text_text_only_skipped (Element ns tag attrs kids)) as Htext.
    cbn [text_only_skipped] in Htext. rewrite Hskip in Htext.
    cbn [elementToJSX textContent]. rewrite Hskip, Htext.
    assert (Hkids : map (fun child => elementToJSX options child (S indent))
                      (map text_only_skipped kids)
                    = map (fun child => elementToJSX options child (S indent)) kids).
    { rewrite List.map_map. apply List.map_ext_Forall.
      eapply List.Forall_impl; [|exact IH]. intros k Hk. apply Hk. }
    now rewrite Hkids.
Qed.

Lemma buildTree_Element ns tag attrs kids :
  buildTree (Element ns tag attrs kids) =
  if has SKIP_TAGS (JS.toLowerCase tag) then None
  else Some (TreeNode (JS.toLowerCase tag)
               (if JS.truthy (id_of attrs) then Some (id_of attrs) else None)
               (className_of ns attrs)
               (omap buildTree (children kids))).
Proof.
  cbn [buildTree]. destruct (has SKIP_TAGS (JS.toLowerCase tag)); [reflexivity|].
  do 2 f_equal. induction kids as [|k r IH]; [reflexivity|].
  cbn [children List.filter]. destruct (is_element k).
  - cbn [omap list_omap]. fold (children r). rewrite <- IH.
    now destruct (buildTree k).
  - exact IH.
Qed.

Lemma buildTree_skipped n : skipped n = true -> buildTree n = None.
Proof.
  destruct n as [ns tag attrs kids | | | ]; try reflexivity.
  cbn [skipped]. intros H. now rewrite buildTree_Element, H.
Qed.

Lemma buildTree_not_element n : is_element n = false -> buildTree n = None.
Proof. now destruct n. Qed.

Lemma elementToJSX_skipped options n indent :
  skipped n = true -> elementToJSX options n indent = EmptyString.
Proof.
  destruct n as [ns tag attrs kids | | | ]; try discriminate.
  cbn [skipped elementToJSX]. now intros ->.
Qed.

Lemma buildTree_tags n :
  forall t, buildTree n = Some t ->
            Forall (fun tag => has SKIP_TAGS tag = false) (tree_tags t).
Proof.
  induction n as [ns tag attrs kids IH | | | ] using node_nested_ind; try discriminate.
  intros t. rewrite buildTree_Element.
  destruct (has SKIP_TAGS (JS.toLowerCase tag)) eqn:Hskip; [discriminate|].
  intros [= <-]. cbn [tree_tags]. constructor; [exact Hskip|].
  unfold children. induction IH as [|k r Hk _ IHr]; [constructor|].
  cbn [List.filter]. destruct (is_element k); [|exact IHr].
  cbn [omap list_omap]. destruct (buildTree k) as [t|] eqn:Hbuild; [|exact IHr].
  cbn [flat_map]. apply Forall_app. split; [now apply Hk | exact IHr].
Qed.

Lemma buildTree_prune n : buildTree (prune n) = buildTree n.
Proof.
  induction n as [ns tag attrs kids IH | | | ] using node_nested_ind; try reflexivity.
  cbn [prune]. rewrite !buildTree_Element.
  destruct (has SKIP_TAGS (JS.toLowerCase tag)); [reflexivity|].
  do 2 f_equal. unfold children.
  induction IH as [|k r Hk _ IHr]; [reflexivity|].
  destruct (skipped k) eqn:Hsk.
  - rewrite IHr. cbn [List.filter].
    destruct (is_element k); [|reflexivity].
    cbn [omap list_omap]. now rewrite (buildTree_skipped k Hsk).
  - cbn [List.filter].
    replace (is_element (prune k)) with (is_element k) by now destruct k.
    destruct (is_element k); [|exact IHr].
    cbn [omap list_omap]. now rewrite Hk, IHr.
Qed.

Lemma prune_skip_free n : skip_free n = true -> prune n = n.
Proof.
  induction n as [ns tag attrs kids IH | | | ] using node_nested_ind; try reflexivity.
  cbn [skip_free prune]. intros [_ Hkids]%andb_prop. f_equal.
  induction IH as [|k r Hk _ IHr]; [reflexivity|].
  cbn [forallb] in Hkids. apply andb_prop in Hkids as [Hfree Hrest].
  assert (Hsk : skipped k = false).
  { destruct k as [ns' tag' attrs' kids' | | | ]; try reflexivity.
    cbn [skip_free] in Hfree. apply andb_prop in Hfree as [Hneg _].
    cbn [skipped]. now destruct (has SKIP_TAGS (JS.toLowerCase tag')). }
  rewrite Hsk, (Hk Hfree), (IHr Hrest). reflexivity.
Qed.

Lemma buildTree_same_shape n :
  is_element n = true -> skipped n = false ->
  exists t, buildTree n = Some t /\ same_shape (prune n) t.
Proof.
  induction n as [ns tag attrs kids IH | | | ] using node_nested_ind; try discriminate.
  intros _ Hskip. cbn [skipped] in Hskip.
  rewrite buildTree_Element, Hskip. eexists. split; [reflexivity|].
  cbn [prune]. constructor. unfold children.
  induction IH as [|k r Hk _ IHr]; [constructor|].
  destruct (skipped k) eqn:Hsk.
  - cbn [List.filter]. destruct (is_element k); [|exact IHr].
    cbn [omap list_omap]. rewrite (buildTree_skipped k Hsk). exact IHr.
  - cbn [List.filter].
    replace (is_element (prune k)) with (is_element k) by now destruct k.
    destruct (is_element k) eqn:Hel; [|exact IHr].
    destruct (Hk eq_refl eq_refl) as (t & Hbuild & Hshape).
    cbn [omap list_omap]. rewrite Hbuild. constructor; [exact Hshape | exact IHr].
Qed.

Lemma print_to_jsx options n :
  forall indent, print_jsx (to_jsx options n) indent = elementToJSX options n indent.
Proof.
  induction n as [ns tag attrs kids IH | d | d | ] using node_nested_ind;
    intros indent; try reflexivity.
  - cbn [to_jsx elementToJSX].
    destruct (has SKIP_TAGS (JS.toLowerCase tag)); [reflexivity|].
    destruct (has SELF_CLOSING_TAGS (JS.toLowerCase tag)); [reflexivity|].
    cbn [print_jsx].
    assert (Hkids : map (fun child => print_jsx child (S indent))
                      (map (to_jsx options) kids)
                    = map (fun child => elementToJSX options child (S indent)) kids).
    { rewrite List.map_map. apply List.map_ext_Forall.
      eapply List.Forall_impl; [|exact IH]. intros k Hk. apply Hk. }
    now rewrite Hkids.
  - cbn [to_jsx elementToJSX]. now destruct (negb _).
  - cbn [to_jsx elementToJSX]. now destruct (negb _).
Qed.

Lemma to_jsx_tags options n :
  Forall (fun tag => has SKIP_TAGS tag = false) (jsx_tags (to_jsx options n)).
Proof.
  induction n as [ns tag attrs kids IH | d | d | ] using node_nested_ind.
  - cbn [to_jsx].
    destruct (has SKIP_TAGS (JS.toLowerCase tag)) eqn:Hskip; [constructor|].
    destruct (has SELF_CLOSING_TAGS (JS.toLowerCase tag)); cbn [jsx_tags flat_map].
    + constructor; [exact Hskip | constructor].
    + constructor; [exact Hskip|].
      induction IH as [|k r Hk _ IHr]; [constructor|].
      cbn [map flat_map]. apply Forall_app. now split.
  - cbn [to_jsx]. destruct (negb _); constructor.
  - cbn [to_jsx]. destruct (negb _); constructor.
  - constructor.
Qed.

(** ** The claims about the component tree and the emitted JSX *)

(** C9. No element whose tag is script, style, noscript, link or meta appears
    in the emitted JSX or in the component tree. A skipped element renders to
    the empty string and builds no tree node; the emitted JSX is the layout of
    a tree of elements none of which carries a skipped tag, and no node of a
    component tree carries one; the emitted JSX is the one of the document
    whose skipped elements have lost their attributes and every element below
    them (only the text below a skipped element can still reach the output,
    through the text content of an enclosing element); and the component tree
    is the one of the document without its skipped elements. *)
Theorem skip_tags_dropped (options : Options) (element : node) (indent : nat) :
  (skipped element = true ->
     elementToJSX options element indent = EmptyString /\ buildTree element = None)
  /\ (elementToJSX options element indent = print_jsx (to_jsx options element) indent
      /\ Forall (fun tag => has SKIP_TAGS tag = false) (jsx_tags (to_jsx options element)))
  /\ (forall t, buildTree element = Some t ->
        Forall (fun tag => has SKIP_TAGS tag = false) (tree_tags t))
  /\ elementToJSX options (text_only_skipped element) indent
     = elementToJSX options element indent
  /\ buildTree (prune element) = buildTree element.
Proof.
  repeat split.
  - now apply elementToJSX_skipped.
  - now apply buildTree_skipped.
  - symmetry. apply print_to_jsx.
  - apply to_jsx_tags.
  - apply buildTree_tags.
  - apply elementToJSX_text_only_skipped.
  - apply buildTree_prune.
Qed.

Lemma skip_tags_dropped_witness :
  elementToJSX (merge_options no_options)
    (Element HTML "SCRIPT" [("src", "app.js")] [Text "run()"]) 1 = EmptyString
  /\ buildTree (Element HTML "SCRIPT" [("src", "app.js")] [Text "run()"]) = None.
Proof.
  apply (proj1 (skip_tags_dropped (merge_options no_options)
                  (Element HTML "SCRIPT" [("src", "app.js")] [Text "run()"]) 1)).
  reflexivity.
Defined.

(** C1, as amended. The component tree of an element that is not skipped has
    the tag names (in lower case), the ids, the class names and the child
    ordering of the document without its skipped elements; on a document with
    no skipped element, of the document itself. *)
Theorem component_tree_preserves_order (element : node) :
  is_element element = true -> skipped element = false ->
  exists t, buildTree element = Some t
            /\ same_shape (prune element) t
            /\ (skip_free element = true -> same_shape element t).
Proof.
  intros Hel Hskip.
  destruct (buildTree_same_shape element Hel Hskip) as (t & Hbuild & Hshape).
  exists t. repeat split; [exact Hbuild | exact Hshape |].
  intros Hfree. now rewrite <- (prune_skip_free element Hfree).
Qed.

Lemma component_tree_preserves_order_witness :
  exists t,
    buildTree (Element HTML "UL" [("id", "menu")]
                 [Element HTML "LI" [] [Text "a"]; Element HTML "SCRIPT" [] [];
                  Element HTML "LI" [("class", "last")] []]) = Some t
    /\ same_shape (prune (Element HTML "UL" [("id", "menu")]
                 [Element HTML "LI" [] [Text "a"]; Element HTML "SCRIPT" [] [];
                  Element HTML "LI" [("class", "last")] []])) t
    /\ (skip_free (Element HTML "UL" [("id", "menu")]
                 [Element HTML "LI" [] [Text "a"]; Element HTML "SCRIPT" [] [];
                  Element HTML "LI" [("class", "last")] []]) = true ->
        same_shape (Element HTML "UL" [("id", "menu")]
                 [Element HTML "LI" [] [Text "a"]; Element HTML "SCRIPT" [] [];
                  Element HTML "LI" [("class", "last")] []]) t).
Proof.
  apply component_tree_preserves_order; reflexivity.
Defined.

(** C1, as stated, fails: a body that holds a script element and an empty body
    are converted to the same JSX and to the same component tree, so nothing
    that reads the output back can return the structure of both. *)
Lemma round_trip_counterexample :
  elementToJSX (merge_options no_options)
    (Element HTML "BODY" [] [Element HTML "SCRIPT" [] []]) 0 = "<body />"
  /\ elementToJSX (merge_options no_options) (Element HTML "BODY" [] []) 0 = "<body />"
  /\ buildTree (Element HTML "BODY" [] [Element HTML "SCRIPT" [] []])
     = buildTree (Element HTML "BODY" [] [])
  /\ ~ same_structure (Element HTML "BODY" [] [Element HTML "SCRIPT" [] []])
         (Element HTML "BODY" [] [])
  /\ ~ (exists reparse : string -> node,
          forall document : node,
            same_structure
              (reparse (elementToJSX (merge_options no_options) document 0)) document)
  /\ ~ (exists rebuild : option Tree -> node,
          forall document : node, same_structure (rebuild (buildTree document)) document).
Proof.
  pose (with_script := Element HTML "BODY" [] [Element HTML "SCRIPT" [] []]).
  pose (empty := Element HTML "BODY" [] []).
  assert (Hno : forall n, same_structure n with_script -> same_structure n empty -> False).
  { intros n H1 H2. inversion H1 as [? ? ? ? ? ? kids ? _ _ Hk1]; subst.
    inversion H2 as [? ? ? ? ? ? ? ? _ _ Hk2]; subst.
    cbn in Hk1, Hk2. inversion Hk2 as [Hnil|]; subst.
    rewrite <- Hnil in Hk1. inversion Hk1. }
  do 3 (split; [reflexivity|]). split; [|split; intros [f Hf]].
  - intros H. inversion H as [? ? ? ? ? ? ? ? _ _ Hk]; subst. inversion Hk.
  - apply (Hno (f "<body />")); [apply (Hf with_script) | apply (Hf empty)].
  - apply (Hno (f (buildTree empty))); [apply (Hf with_script) | apply (Hf empty)].
Qed.

(** ** Attributes *)

Lemma JSX_ATTR_MAP_values k v :
  Obj.lookup JSX_ATTR_MAP k = Some v ->
  JS.truthy v = true /\ String.eqb v "style" = false /\ stripped v = false
  /\ String.eqb k "style" = false.
Proof.
  unfold JSX_ATTR_MAP. cbn [Obj.lookup].
  repeat match goal with
         | |- context [String.eqb ?a k] =>
             destruct (String.eqb_spec a k) as [<-|_];
             [intros [= <-]; repeat split; reflexivity|]
         end.
  discriminate.
Qed.

Lemma startsWith_before_equals (n p rest : string) :
  JS.includes_char p "=" = false ->
  JS.startsWith n p = false ->
  JS.startsWith (n +:+ String "=" rest) p = false.
Proof.
  revert p. induction n as [|a n' IH]; intros [|c p'] Hp Hn; try discriminate.
  - cbn [JS.includes_char] in Hp. apply orb_false_elim in Hp as [Hc _].
    rewrite append_empty_l. cbn [JS.startsWith]. rewrite Ascii.eqb_sym in Hc.
    now rewrite Hc.
  - cbn [JS.includes_char] in Hp. apply orb_false_elim in Hp as [_ Hp'].
    rewrite append_cons. cbn [JS.startsWith] in *.
    destruct (Ascii.eqb c a); [|reflexivity].
    cbn [andb] in *. now apply IH.
Qed.

Lemma stripped_before_equals (n rest : string) :
  stripped n = false -> stripped (n +:+ String "=" rest) = false.
Proof.
  unfold stripped. intros H.
  apply orb_false_elim in H as [H H3]. apply orb_false_elim in H as [H1 H2].
  now rewrite !startsWith_before_equals.
Qed.

Lemma stripped_inherited k : stripped (Obj.to_string (Obj.VInherited k)) = false.
Proof.
  cbn [Obj.to_string]. destruct (String.eqb k "__proto__"); reflexivity.
Qed.

Lemma attribute_to_jsx_not_stripped attr :
  Forall (fun s => stripped s = false) (attribute_to_jsx attr).
Proof.
  unfold attribute_to_jsx.
  destruct (JS.startsWith (JS.toLowerCase (fst attr)) "on") eqn:Hon; [constructor|].
  destruct (JS.startsWith (JS.toLowerCase (fst attr)) "data-react"
            || JS.startsWith (JS.toLowerCase (fst attr)) "data-v-") eqn:Hdata; [constructor|].
  assert (Hname : stripped (JS.toLowerCase (fst attr)) = false).
  { unfold stripped. rewrite Hon. cbn [orb]. exact Hdata. }
  assert (Hout : stripped (Obj.to_string
            (Obj.get_or JSX_ATTR_MAP (JS.toLowerCase (fst attr))
                        (Obj.VStr (JS.toLowerCase (fst attr))))) = false).
  { unfold Obj.get_or, Obj.get.
    destruct (Obj.lookup JSX_ATTR_MAP (JS.toLowerCase (fst attr))) as [v|] eqn:Hlook.
    - destruct (JSX_ATTR_MAP_values _ _ Hlook) as (-> & _ & Hv & _). exact Hv.
    - destruct (Obj.inherited (JS.toLowerCase (fst attr))); [apply stripped_inherited|].
      exact Hname. }
  destruct (Obj.is_str _ "style").
  { destruct (parseStyleString (snd attr)); repeat constructor. }
  destruct (_ || _ || _); [repeat constructor; exact Hout|].
  destruct (Obj.is_str _ "className"); repeat constructor.
  now apply stripped_before_equals.
Qed.

Lemma attribute_to_jsx_expected attr :
  Obj.inherited (JS.toLowerCase (fst attr)) = false ->
  attribute_to_jsx attr = expected_attribute attr.
Proof.
  intros Hown. unfold attribute_to_jsx, expected_attribute, stripped.
  destruct (JS.startsWith (JS.toLowerCase (fst attr)) "on"); [reflexivity|].
  cbn [orb].
  destruct (JS.startsWith (JS.toLowerCase (fst attr)) "data-react"
            || JS.startsWith (JS.toLowerCase (fst attr)) "data-v-"); [reflexivity|].
  unfold Obj.get_or, Obj.get, jsx_name, boolean_value, preserved.
  destruct (Obj.lookup JSX_ATTR_MAP (JS.toLowerCase (fst attr))) as [v|] eqn:Hlook.
  - destruct (JSX_ATTR_MAP_values _ _ Hlook) as (-> & Hstyle & _ & Hkey).
    cbn [Obj.is_str Obj.to_string default]. rewrite Hstyle, Hkey.
    destruct (_ || _ || _); [reflexivity|].
    destruct (String.eqb_spec v "className") as [->|_]; reflexivity.
  - rewrite Hown. cbn [Obj.is_str Obj.to_string default].
    destruct (String.eqb (JS.toLowerCase (fst attr)) "style"); [reflexivity|].
    destruct (_ || _ || _); [reflexivity|].
    destruct (String.eqb_spec (JS.toLowerCase (fst attr)) "className") as [->|_]; reflexivity.
Qed.

(** C2, as amended. Attribute by attribute and in order: a name that starts
    with on, data-react or data-v- is stripped; style is parsed into a property
    map (and dropped when the map is empty); every other attribute is emitted
    under its idiomatic name, with its value, unless the value is empty, equal
    to the emitted name or true, in which case the bare name is emitted. No
    emitted attribute begins with on, data-react or data-v-. Names that are
    members of Object.prototype are left aside. *)
Theorem buildAttributes_amended (attributes : list (string * string)) :
  Forall (fun attr => Obj.inherited (JS.toLowerCase (fst attr)) = false) attributes ->
  buildAttributes attributes = flat_map expected_attribute attributes
  /\ Forall (fun s => stripped s = false) (buildAttributes attributes).
Proof.
  intros Hown. unfold buildAttributes. split.
  - induction Hown as [|attr r Hattr _ IH]; [reflexivity|].
    cbn [flat_map]. now rewrite IH, attribute_to_jsx_expected.
  - clear Hown. induction attributes as [|attr r IH]; [constructor|].
    cbn [flat_map]. apply Forall_app. split; [apply attribute_to_jsx_not_stripped | exact IH].
Qed.

Lemma buildAttributes_amended_witness :
  buildAttributes [("class", "btn"); ("onclick", "go()"); ("disabled", ""); ("for", "x")]
  = flat_map expected_attribute
      [("class", "btn"); ("onclick", "go()"); ("disabled", ""); ("for", "x")]
  /\ Forall (fun s => stripped s = false)
       (buildAttributes [("class", "btn"); ("onclick", "go()"); ("disabled", ""); ("for", "x")]).
Proof.
  apply buildAttributes_amended. repeat constructor.
Defined.

(** C2, as stated, fails: alt and title are no event handlers, no framework
    attributes, not style, and have no entry in the map, yet the empty value of
    the one and the value true of the other are not kept. *)
Lemma boolean_attribute_counterexample :
  buildAttributes [("alt", EmptyString); ("title", "true")] = ["alt"; "title"]
  /\ flat_map claimed_attribute [("alt", EmptyString); ("title", "true")]
     = [preserved "alt" EmptyString; preserved "title" "true"]
  /\ buildAttributes [("alt", EmptyString); ("title", "true")]
     <> flat_map claimed_attribute [("alt", EmptyString); ("title", "true")].
Proof.
  repeat split; try reflexivity. discriminate.
Qed.

(** ** Style strings *)

Lemma split_from_no_sep sep a :
  JS.includes_char a sep = false -> JS.split_from sep a = (a, []).
Proof.
  induction a as [|c r IH]; [reflexivity|].
  cbn [JS.includes_char JS.split_from]. intros [Hc Hr]%orb_false_elim.
  rewrite (IH Hr). rewrite Ascii.eqb_sym in Hc. now rewrite Hc.
Qed.

Lemma split_no_sep sep a : JS.includes_char a sep = false -> JS.split sep a = [a].
Proof. intros H. unfold JS.split. now rewrite split_from_no_sep. Qed.

Lemma split_append_sep sep a b :
  JS.includes_char a sep = false ->
  JS.split sep (a +:+ String sep b) = a :: JS.split sep b.
Proof.
  unfold JS.split. induction a as [|c r IH].
  - intros _. rewrite append_empty_l. cbn [JS.split_from].
    destruct (JS.split_from sep b). now rewrite Ascii.eqb_refl.
  - cbn [JS.includes_char]. intros [Hc Hr]%orb_false_elim.
    rewrite append_cons. cbn [JS.split_from]. specialize (IH Hr).
    destruct (JS.split_from sep (r +:+ String sep b)) as [piece rest].
    destruct (JS.split_from sep b) as [piece' rest'].
    injection IH as -> ->. rewrite Ascii.eqb_sym in Hc. now rewrite Hc.
Qed.

Lemma includes_char_append a b c :
  JS.includes_char (a +:+ b) c = JS.includes_char a c || JS.includes_char b c.
Proof.
  induction a as [|x r IH]; [reflexivity|].
  rewrite append_cons. cbn [JS.includes_char]. now rewrite IH, orb_assoc.
Qed.

Lemma truthy_append_cons a c b : JS.truthy (a +:+ String c b) = true.
Proof. now destruct a. Qed.

Lemma split_style_text ds :
  ds <> [] ->
  Forall plain_declaration ds ->
  JS.split ";" (style_text ds) = map declaration_text ds.
Proof.
  intros Hne Hplain. induction Hplain as [|d r Hd Hr IH]; [contradiction|].
  assert (Hdecl : JS.includes_char (declaration_text d) ";" = false).
  { destruct Hd as (Hp & _ & Hv & _). unfold declaration_text.
    now rewrite !includes_char_append, Hp, Hv. }
  destruct r as [|d' r'].
  - cbn. now apply split_no_sep.
  - change (style_text (d :: d' :: r'))
      with (declaration_text d +:+ String ";" (style_text (d' :: r'))).
    rewrite split_append_sep by exact Hdecl.
    cbn [map]. f_equal. now apply IH.
Qed.

Lemma add_rule_declaration o d :
  plain_declaration d ->
  add_rule o (declaration_text d)
  = Obj.set o (camelCase (JS.trim (fst d))) (JS.trim (snd d)).
Proof.
  intros (_ & Hp & _ & Hv & Htp & Htv). unfold add_rule, declaration_text.
  change (fst d +:+ ":" +:+ snd d) with (fst d +:+ String ":" (snd d)).
  rewrite split_append_sep by exact Hp. rewrite split_no_sep by exact Hv.
  cbn [map]. now rewrite Htp, Htv.
Qed.

Lemma fold_add_rule ds :
  Forall plain_declaration ds ->
  forall o,
    fold_left add_rule (map declaration_text ds) o
    = fold_left (fun o d => Obj.set o (camelCase (JS.trim (fst d))) (JS.trim (snd d))) ds o.
Proof.
  induction 1 as [|d r Hd _ IH]; intros o; [reflexivity|].
  cbn [map fold_left]. now rewrite add_rule_declaration, IH.
Qed.

Lemma filter_truthy_declarations ds :
  List.filter JS.truthy (map declaration_text ds) = map declaration_text ds.
Proof.
  induction ds as [|d r IH]; [reflexivity|].
  cbn [map List.filter]. unfold declaration_text at 1.
  change (fst d +:+ ":" +:+ snd d) with (fst d +:+ String ":" (snd d)).
  now rewrite truthy_append_cons, IH.
Qed.

(** C8, as amended. On a style string made of semicolon-separated
    [property: value] declarations whose properties and values hold no colon
    and no semicolon and are not blank, [parseStyleString] returns the map that
    binds, declaration after declaration, the camel-cased property to the
    trimmed value (a later declaration of a property replacing the earlier
    one), and null when the map has no entry. [formatStyleObject] renders a map
    as the text of a JSX object literal between double braces; it does not
    render an inline style string. *)
Theorem parseStyleString_declarations (declarations : list (string * string)) :
  Forall plain_declaration declarations ->
  parseStyleString (style_text declarations) = expected_style declarations
  /\ forall styleObj,
       formatStyleObject (Some styleObj)
       = Some ("{{ " +:+ JS.join ", " (map format_entry styleObj) +:+ " }}").
Proof.
  intros Hplain. split; [|reflexivity].
  destruct declarations as [|d r]; [reflexivity|].
  unfold parseStyleString, expected_style.
  assert (Htext : JS.truthy (style_text (d :: r)) = true).
  { unfold style_text, declaration_text. cbn [map JS.join].
    change (fst d +:+ ":" +:+ snd d) with (fst d +:+ String ":" (snd d)).
    destruct r; [apply truthy_append_cons|].
    rewrite append_assoc, append_cons. apply truthy_append_cons. }
  rewrite Htext. cbn [negb].
  rewrite split_style_text by (done || exact Hplain).
  rewrite filter_truthy_declarations, fold_add_rule by exact Hplain.
  unfold Obj.keys. rewrite length_map.
  match goal with
  | |- context [fold_left ?f ?l ?o] => now destruct (fold_left f l o)
  end.
Qed.

Lemma parseStyleString_declarations_witness :
  parseStyleString (style_text [("color", " red"); ("font-size", " 12px ")])
  = expected_style [("color", " red"); ("font-size", " 12px ")]
  /\ forall styleObj,
       formatStyleObject (Some styleObj)
       = Some ("{{ " +:+ JS.join ", " (map format_entry styleObj) +:+ " }}").
Proof.
  apply parseStyleString_declarations. repeat constructor.
Defined.

(** C8, as stated, fails: the two directions do not round-trip. The text that
    [formatStyleObject] renders for the map of [color: red] is not that style
    string, and parsing it does not give the map back. *)
Lemma style_round_trip_counterexample :
  parseStyleString "color: red" = Some [("color", "red")]
  /\ formatStyleObject (Some (as_style_object [("color", "red")]))
     = Some ("{{ color: " +:+ JS.dquote +:+ "red" +:+ JS.dquote +:+ " }}")
  /\ "{{ color: " +:+ JS.dquote +:+ "red" +:+ JS.dquote +:+ " }}" <> "color: red"
  /\ parseStyleString ("{{ color: " +:+ JS.dquote +:+ "red" +:+ JS.dquote +:+ " }}")
     <> Some [("color", "red")].
Proof.
  repeat split; try reflexivity; discriminate.
Qed.

(** ** Writing components *)

Section WriteComponents.

Variable path_join : list string -> string.
Variable outputDir : string.

Lemma write_each_frame components :
  forall fs written r fs',
    write_each path_join fs components outputDir written = (r, fs') ->
    FS.dirs fs' = FS.dirs fs
    /\ forall p, p ∉ map (fun c => path_join [outputDir; filename c]) components -> FS.files fs' !! p = FS.files fs !! p.
Proof.
  induction components as [|c rest IH]; intros fs written r fs'; cbn [write_each].
  - intros [= <- <-]. now split.
  - unfold FS.writeFileSync. destruct (bool_decide _).
    + intros [= <- <-]. now split.
    + intros Hrest. apply IH in Hrest as [Hdirs Hfiles]. cbn in Hdirs, Hfiles.
      split; [exact Hdirs|]. intros p Hp. cbn [map] in Hp.
      apply not_elem_of_cons in Hp as [Hne Hp].
      rewrite (Hfiles p Hp). now apply lookup_insert_ne.
Qed.

Lemma write_each_ok components :
  forall fs written w fs',
    write_each path_join fs components outputDir written = (Ok w, fs') ->
    w = (written ++ map (fun c => path_join [outputDir; filename c]) components)%list
    /\ dom (FS.files fs') = dom (FS.files fs) ∪ list_to_set (map (fun c => path_join [outputDir; filename c]) components)
    /\ forall p, p ∈ map (fun c => path_join [outputDir; filename c]) components ->
         exists c, c ∈ components /\ path_join [outputDir; filename c] = p /\ FS.files fs' !! p = Some (content c).
Proof.
  induction components as [|c rest IH]; intros fs written w fs'; cbn [write_each].
  - intros [= <- <-]. rewrite app_nil_r. repeat split; [set_solver|].
    intros p Hp. inversion Hp.
  - unfold FS.writeFileSync. destruct (bool_decide _); [discriminate|].
    intros Hrest. pose proof (write_each_frame _ _ _ _ _ Hrest) as [_ Hframe].
    apply IH in Hrest as (-> & Hdom & Hcontent). cbn in Hdom, Hframe.
    repeat split.
    + now rewrite <- app_assoc.
    + rewrite Hdom, dom_insert_L. cbn [map list_to_set]. set_solver.
    + intros p Hp. destruct (decide (p ∈ map (fun c => path_join [outputDir; filename c]) rest)) as [Hin|Hout].
      * destruct (Hcontent p Hin) as (c' & Hc' & Htarget & Hlook).
        exists c'. repeat split; [now right | exact Htarget | exact Hlook].
      * cbn [map] in Hp. apply elem_of_cons in Hp as [->|Hin]; [|contradiction].
        exists c. repeat split; [now left|].
        rewrite (Hframe _ Hout). apply lookup_insert_eq.
Qed.

Lemma last_content_None (path_of : Component -> string) components p :
  last_content path_of components p = None <-> p ∉ map path_of components.
Proof.
  induction components as [|c rest IH]; cbn [last_content map].
  - split; [intros _ Hin; inversion Hin | reflexivity].
  - rewrite not_elem_of_cons, <- IH.
    destruct (last_content path_of rest p); [split; [discriminate | now intros [_ ?]]|].
    destruct (String.eqb_spec (path_of c) p) as [->|Hne]; split; try discriminate.
    + now intros [? _].
    + intros _. split; [congruence | reflexivity].
    + reflexivity.
Qed.

Lemma last_content_Some (path_of : Component -> string) components p x :
  last_content path_of components p = Some x ->
  exists c, c ∈ components /\ path_of c = p /\ content c = x.
Proof.
  induction components as [|c rest IH]; cbn [last_content]; [discriminate|].
  destruct (last_content path_of rest p) as [y|].
  - intros [= <-]. destruct (IH eq_refl) as (c' & Hc' & Hp & Hx).
    exists c'. repeat split; [now right | exact Hp | exact Hx].
  - destruct (String.eqb_spec (path_of c) p) as [Heq|Hne]; [|discriminate].
    intros [= <-]. exists c. repeat split; [now left | exact Heq].
Qed.

Lemma last_content_NoDup (path_of : Component -> string) components c :
  NoDup (map path_of components) -> c ∈ components ->
  last_content path_of components (path_of c) = Some (content c).
Proof.
  induction components as [|c0 rest IH]; intros Hnodup Hc; [inversion Hc|].
  cbn [map] in Hnodup. apply NoDup_cons in Hnodup as [Hfresh Hnodup].
  cbn [last_content]. apply elem_of_cons in Hc as [->|Hrest].
  - apply last_content_None in Hfresh. rewrite Hfresh. now rewrite String.eqb_refl.
  - now rewrite (IH Hnodup Hrest).
Qed.

Lemma write_each_content components :
  forall fs written w fs',
    write_each path_join fs components outputDir written = (Ok w, fs') ->
    forall p,
      FS.files fs' !! p
      = match last_content (fun c => path_join [outputDir; filename c]) components p with
        | Some x => Some x
        | None => FS.files fs !! p
        end.
Proof.
  induction components as [|c rest IH]; intros fs written w fs'; cbn [write_each].
  - now intros [= <- <-] p.
  - unfold FS.writeFileSync. destruct (bool_decide _); [discriminate|].
    intros Hrest p. rewrite (IH _ _ _ _ Hrest p). cbn [last_content FS.files].
    destruct (last_content _ rest p); [reflexivity|].
    destruct (String.eqb_spec (path_join [outputDir; filename c]) p) as [->|Hne].
    + apply lookup_insert_eq.
    + now apply lookup_insert_ne.
Qed.

(** C4, as amended. [writeComponents] takes no backup. Whatever the outcome,
    every file other than the component files is left as it was. After a
    successful run the paths written are those of the components, in order,
    and each of them holds the content of the last component written to it,
    whatever the file held before: the content of the component itself when
    no two components have the same path. *)
Theorem writeComponents_overwrites_in_place
    (fs : FS.t) (components : list Component) (r : result (list string)) (fs' : FS.t) :
  writeComponents path_join fs components outputDir = (r, fs') ->
  (forall p, p ∉ map (fun c => path_join [outputDir; filename c]) components ->
             FS.files fs' !! p = FS.files fs !! p)
  /\ (forall written, r = Ok written ->
        written = map (fun c => path_join [outputDir; filename c]) components
        /\ (forall p, p ∈ written ->
              FS.files fs' !! p
              = last_content (fun c => path_join [outputDir; filename c]) components p
              /\ exists c, c ∈ components /\ path_join [outputDir; filename c] = p
                           /\ FS.files fs' !! p = Some (content c))
        /\ (NoDup written ->
            forall c, c ∈ components ->
              FS.files fs' !! path_join [outputDir; filename c] = Some (content c))).
Proof.
  unfold writeComponents. intros Hwrite. split.
  - intros p Hp. apply write_each_frame in Hwrite as [_ Hframe].
    rewrite (Hframe p Hp). now destruct (negb _).
  - intros written ->.
    pose proof (write_each_content _ _ _ _ _ Hwrite) as Hcontent.
    apply write_each_ok in Hwrite as (-> & _ & _). cbn [app].
    split; [reflexivity|]. split.
    + intros p Hp. rewrite (Hcontent p).
      destruct (last_content _ components p) as [x|] eqn:Hlast.
      * split; [reflexivity|].
        destruct (last_content_Some _ _ _ _ Hlast) as (c & Hc & Htarget & Hx).
        exists c. now rewrite Hx.
      * now apply last_content_None in Hlast.
    + intros Hnodup c Hc. rewrite (Hcontent _).
      now rewrite (last_content_NoDup (fun c => path_join [outputDir; filename c])
                     components c Hnodup Hc).
Qed.

(** C6, as amended. [writeComponents] writes one file per component, named by
    the file name of the component, and no other file: the paths written are
    those of the components, in order, and the files of the output are the
    files that were there and these. No index file and no registry file is
    emitted. *)
Theorem writeComponents_one_file_per_component
    (fs : FS.t) (components : list Component) (written : list string) (fs' : FS.t) :
  writeComponents path_join fs components outputDir = (Ok written, fs') ->
  written = map (fun c => path_join [outputDir; filename c]) components
  /\ dom (FS.files fs') = dom (FS.files fs) ∪ list_to_set written.
Proof.
  unfold writeComponents. intros Hwrite.
  apply write_each_ok in Hwrite as (-> & Hdom & _). split; [reflexivity|].
  rewrite Hdom. now destruct (negb _).
Qed.

End WriteComponents.

Lemma writeComponents_overwrites_in_place_witness :
  (forall p, p ∉ map (fun c => posix_join ["out"; filename c]) [header_component] ->
             FS.files (snd (writeComponents posix_join fs_with_old_header
                              [header_component] "out")) !! p
             = FS.files fs_with_old_header !! p)
  /\ (forall written,
        fst (writeComponents posix_join fs_with_old_header [header_component] "out")
        = Ok written ->
        written = map (fun c => posix_join ["out"; filename c]) [header_component]
        /\ (forall p, p ∈ written ->
              FS.files (snd (writeComponents posix_join fs_with_old_header
                               [header_component] "out")) !! p
              = last_content (fun c => posix_join ["out"; filename c])
                  [header_component] p
              /\ exists c, c ∈ [header_component] /\ posix_join ["out"; filename c] = p
                           /\ FS.files (snd (writeComponents posix_join fs_with_old_header
                                               [header_component] "out")) !! p
                              = Some (content c))
        /\ (NoDup written ->
            forall c, c ∈ [header_component] ->
              FS.files (snd (writeComponents posix_join fs_with_old_header
                               [header_component] "out"))
                !! posix_join ["out"; filename c]
              = Some (content c))).
Proof.
  apply (writeComponents_overwrites_in_place posix_join "out" fs_with_old_header
           [header_component]).
  now destruct (writeComponents _ _ _ _).
Defined.

Lemma writeComponents_one_file_per_component_witness :
  ["out/Header.tsx"] = map (fun c => posix_join ["out"; filename c]) [header_component]
  /\ dom (FS.files (snd (writeComponents posix_join fs_with_old_header
                           [header_component] "out")))
     = dom (FS.files fs_with_old_header) ∪ list_to_set ["out/Header.tsx"].
Proof.
  apply (writeComponents_one_file_per_component posix_join "out" fs_with_old_header
           [header_component]).
  vm_compute. reflexivity.
Defined.

(** C4, as stated, fails: the file that was there is overwritten and its prior
    contents are kept nowhere. *)
Lemma no_backup_counterexample :
  FS.files fs_with_old_header !! "out/Header.tsx" = Some "old contents"
  /\ fst (writeComponents posix_join fs_with_old_header [header_component] "out")
     = Ok ["out/Header.tsx"]
  /\ ~ (exists backup,
          FS.files (snd (writeComponents posix_join fs_with_old_header
                           [header_component] "out")) !! backup
          = Some "old contents").
Proof.
  split; [reflexivity|]. split; [vm_compute; reflexivity|].
  intros [backup Hbackup].
  assert (Hfiles :
    FS.files (snd (writeComponents posix_join fs_with_old_header [header_component] "out"))
    = {[ "out/Header.tsx" := content header_component ]}).
  { vm_compute. reflexivity. }
  rewrite Hfiles in Hbackup. apply lookup_singleton_Some in Hbackup as [_ Hcontent].
  discriminate Hcontent.
Qed.

(** C6, as stated, fails: a run of the command line on a page with one header
    leaves the page and the file of the one component, and nothing else. *)
Lemma no_index_counterexample :
  exitCode (main fixture_JSDOM posix_join "/projects" fs_with_page
              ["--input"; "page.html"; "--output"; "out"]) = 0
  /\ dom (FS.files (fs_after (main fixture_JSDOM posix_join "/projects" fs_with_page
                                ["--input"; "page.html"; "--output"; "out"])))
     = {[ "page.html"; "out/Header.tsx" ]}.
Proof.
  split; vm_compute; reflexivity.
Qed.

(** ** The conversion as a whole *)

Section Conversion.

Variable JSDOM : string -> node.
Variable path_join : list string -> string.
Variable PROJECTS_DIR : string.

Lemma loadFromFile_missing fs this htmlPath :
  FS.existsSync fs htmlPath = false ->
  loadFromFile JSDOM fs this htmlPath = Throw ("HTML file not found: " +:+ htmlPath).
Proof. unfold loadFromFile. now intros ->. Qed.

Lemma loadFromFile_present fs this htmlPath html :
  FS.files fs !! htmlPath = Some html ->
  loadFromFile JSDOM fs this htmlPath = Ok (set_document this (JSDOM html)).
Proof.
  intros Hfile. unfold loadFromFile, FS.existsSync, FS.readFileSync.
  rewrite Hfile. rewrite bool_decide_eq_true_2 by eauto. reflexivity.
Qed.

Lemma convertHTMLToReact_present fs htmlPath html options :
  FS.files fs !! htmlPath = Some html ->
  convertHTMLToReact JSDOM fs htmlPath options
  = conversion_of (set_document (new_converter options) (JSDOM html)).
Proof.
  intros Hfile. unfold convertHTMLToReact.
  now rewrite (loadFromFile_present _ _ _ _ Hfile).
Qed.

Lemma conversion_of_loaded this d :
  Converter.document this = Some d -> exists r, conversion_of this = Ok r.
Proof.
  intros Hd. unfold conversion_of, convertBody, extractAllComponents, getComponentTree,
    extractComponentBoundaries, the_document.
  rewrite Hd. cbn [bind].
  destruct (extractComponentBoundariesWith classPatterns d _) as [bs counter].
  cbn [bind snd fst set_counter Converter.document]. rewrite Hd. cbn [bind].
  destruct (extractComponentBoundariesWith classPatterns d _) as [bs2 counter2].
  destruct (body d); cbn [bind]; eexists; reflexivity.
Qed.

Lemma Heap_call_last {A : Type} (heap : Heap.t) (this : Converter.t)
    (method : Converter.t -> result (A * Converter.t)) :
  Heap.call (length heap) method (heap ++ [this])%list
  = match method this with
    | Ok (a, this') => (Ok a, (heap ++ [this'])%list)
    | Throw m => (Throw m, (heap ++ [this])%list)
    end.
Proof.
  unfold Heap.call. rewrite list_lookup_middle by reflexivity.
  destruct (method this) as [[a this']|m]; [|reflexivity].
  rewrite insert_app_r_alt by reflexivity. now rewrite Nat.sub_diag.
Qed.

Lemma Heap_read_last {A : Type} (heap : Heap.t) (this : Converter.t)
    (method : Converter.t -> result A) :
  Heap.read (length heap) method (heap ++ [this])%list
  = (method this, (heap ++ [this])%list).
Proof. unfold Heap.read. now rewrite list_lookup_middle by reflexivity. Qed.

Lemma conversion_of_fresh options d :
  conversion_of (set_document (new_converter options) d)
  = Ok (fresh_conversion options d).
Proof.
  unfold conversion_of, fresh_conversion, convertBody, extractAllComponents,
    getComponentTree, extractComponentBoundaries, the_document.
  cbn [set_document new_converter Converter.document Converter.options
       Converter.componentCounter bind].
  destruct (extractComponentBoundariesWith classPatterns d 0) as [first counter].
  cbn [bind fst snd set_counter set_document new_converter Converter.document
       Converter.componentCounter Converter.options].
  destruct (extractComponentBoundariesWith classPatterns d counter) as [second counter2].
  now destruct (body d).
Qed.

(** On a heap that holds any instances, a call makes one more and returns what
    the state-passing [convertHTMLToReact] returns. *)
Lemma Heap_convertHTMLToReact_new fs htmlPath options (heap : Heap.t) :
  fst (Heap.convertHTMLToReact JSDOM fs htmlPath options heap)
  = convertHTMLToReact JSDOM fs htmlPath options
  /\ exists converter,
       snd (Heap.convertHTMLToReact JSDOM fs htmlPath options heap)
       = (heap ++ [converter])%list.
Proof.
  unfold Heap.convertHTMLToReact, Heap.new, convertHTMLToReact.
  rewrite Heap_call_last.
  destruct (loadFromFile JSDOM fs (new_converter options) htmlPath) as [this|m];
    cbn [bind]; [|split; [reflexivity | eexists; reflexivity]].
  rewrite Heap_read_last. unfold conversion_of.
  destruct (convertBody this) as [jsx_of_body|m]; cbn [bind];
    [|split; [reflexivity | eexists; reflexivity]].
  rewrite Heap_call_last.
  destruct (extractAllComponents this) as [[cs this']|m]; cbn [bind fst snd];
    [|split; [reflexivity | eexists; reflexivity]].
  rewrite Heap_read_last.
  destruct (getComponentTree this') as [t|m]; cbn [bind];
    [|split; [reflexivity | eexists; reflexivity]].
  rewrite Heap_call_last.
  destruct (extractComponentBoundaries this') as [[bs this'']|m]; cbn [bind fst snd];
    split; try reflexivity; eexists; reflexivity.
Qed.

(** C10. A call of [convertHTMLToReact] makes a new converter instance and
    uses no other: on any heap, whatever instances earlier calls have left
    there with whatever counters, and for any file that holds the same
    contents, the call returns the conversion of the parsed contents by an
    instance whose counter starts at 0 (the same JSX text, component list,
    tree and boundary list); it leaves every earlier instance as it was and
    adds one; and a second call, made after the first, returns the same. *)
Theorem convertHTMLToReact_deterministic
    (fs1 fs2 : FS.t) (htmlPath1 htmlPath2 html : string) (options : OptionsArg)
    (heap1 heap2 : Heap.t) :
  FS.files fs1 !! htmlPath1 = Some html ->
  FS.files fs2 !! htmlPath2 = Some html ->
  fst (Heap.convertHTMLToReact JSDOM fs1 htmlPath1 options heap1)
  = Ok (fresh_conversion options (JSDOM html))
  /\ fst (Heap.convertHTMLToReact JSDOM fs2 htmlPath2 options heap2)
     = fst (Heap.convertHTMLToReact JSDOM fs1 htmlPath1 options heap1)
  /\ (exists converter,
        snd (Heap.convertHTMLToReact JSDOM fs1 htmlPath1 options heap1)
        = (heap1 ++ [converter])%list)
  /\ fst (Heap.convertHTMLToReact JSDOM fs2 htmlPath2 options
            (snd (Heap.convertHTMLToReact JSDOM fs1 htmlPath1 options heap1)))
     = fst (Heap.convertHTMLToReact JSDOM fs1 htmlPath1 options heap1)
  /\ convertHTMLToReact JSDOM fs1 htmlPath1 options
     = Ok (fresh_conversion options (JSDOM html)).
Proof.
  intros H1 H2.
  assert (Hany : forall fs htmlPath (heap : Heap.t),
             FS.files fs !! htmlPath = Some html ->
             fst (Heap.convertHTMLToReact JSDOM fs htmlPath options heap)
             = Ok (fresh_conversion options (JSDOM html))).
  { intros fs htmlPath heap Hfile.
    destruct (Heap_convertHTMLToReact_new fs htmlPath options heap) as [-> _].
    rewrite (convertHTMLToReact_present _ _ html) by assumption.
    apply conversion_of_fresh. }
  repeat split.
  - now apply Hany.
  - now rewrite !Hany.
  - apply Heap_convertHTMLToReact_new.
  - now rewrite !Hany.
  - rewrite (convertHTMLToReact_present _ _ html) by assumption.
    apply conversion_of_fresh.
Qed.

(** C7. When the input file is absent, [loadFromFile] raises an error that
    names the file, the conversion fails with it, and a run of the command
    line that resolves to this input exits with code 1, reports the error and
    leaves the file system as it was. *)
Theorem missing_input_is_fatal
    (fs : FS.t) (argv : list string) (a : Args) (htmlPath : string) (options : OptionsArg) :
  parse_args argv (Build_Args None None None None false) = Some a ->
  inputPath (project_paths path_join PROJECTS_DIR a) = Some htmlPath ->
  JS.truthy htmlPath = true ->
  FS.existsSync fs htmlPath = false ->
  loadFromFile JSDOM fs (new_converter options) htmlPath
  = Throw ("HTML file not found: " +:+ htmlPath)
  /\ convertHTMLToReact JSDOM fs htmlPath options
     = Throw ("HTML file not found: " +:+ htmlPath)
  /\ main JSDOM path_join PROJECTS_DIR fs argv
     = {| exitCode := 1; fs_after := fs;
          stderr := [error_line ("HTML file not found: " +:+ htmlPath)] |}.
Proof.
  intros Hargs Hinput Htruthy Hmissing.
  assert (Hconv : forall o, convertHTMLToReact JSDOM fs htmlPath o
                            = Throw ("HTML file not found: " +:+ htmlPath)).
  { intros o. unfold convertHTMLToReact.
    now rewrite (loadFromFile_missing _ _ _ Hmissing). }
  repeat split.
  - now apply loadFromFile_missing.
  - apply Hconv.
  - unfold main. rewrite Hargs, Hinput.
    destruct htmlPath as [|c rest]; [discriminate|].
    unfold try_block. now rewrite Hconv.
Qed.

End Conversion.

Lemma convertHTMLToReact_deterministic_witness :
  fst (Heap.convertHTMLToReact fixture_JSDOM fs_with_page "page.html" no_options
         [used_converter])
  = Ok (fresh_conversion no_options (fixture_JSDOM "<header>Hi</header>"))
  /\ fst (Heap.convertHTMLToReact fixture_JSDOM
            {| FS.files := {[ "copy.html" := "<header>Hi</header>"; "other.txt" := "x" ]};
               FS.dirs := {[ "out" ]} |} "copy.html" no_options [])
     = fst (Heap.convertHTMLToReact fixture_JSDOM fs_with_page "page.html" no_options
              [used_converter])
  /\ (exists converter,
        snd (Heap.convertHTMLToReact fixture_JSDOM fs_with_page "page.html" no_options
               [used_converter])
        = ([used_converter] ++ [converter])%list)
  /\ fst (Heap.convertHTMLToReact fixture_JSDOM
            {| FS.files := {[ "copy.html" := "<header>Hi</header>"; "other.txt" := "x" ]};
               FS.dirs := {[ "out" ]} |} "copy.html" no_options
            (snd (Heap.convertHTMLToReact fixture_JSDOM fs_with_page "page.html"
                    no_options [used_converter])))
     = fst (Heap.convertHTMLToReact fixture_JSDOM fs_with_page "page.html" no_options
              [used_converter])
  /\ convertHTMLToReact fixture_JSDOM fs_with_page "page.html" no_options
     = Ok (fresh_conversion no_options (fixture_JSDOM "<header>Hi</header>")).
Proof.
  apply (convertHTMLToReact_deterministic fixture_JSDOM fs_with_page
           {| FS.files := {[ "copy.html" := "<header>Hi</header>"; "other.txt" := "x" ]};
              FS.dirs := {[ "out" ]} |}
           "page.html" "copy.html" "<header>Hi</header>" no_options
           [used_converter] []); reflexivity.
Defined.

Lemma missing_input_is_fatal_witness :
  loadFromFile fixture_JSDOM fs_with_page (new_converter no_options) "absent.html"
  = Throw ("HTML file not found: " +:+ "absent.html")
  /\ convertHTMLToReact fixture_JSDOM fs_with_page "absent.html" no_options
     = Throw ("HTML file not found: " +:+ "absent.html")
  /\ main fixture_JSDOM posix_join "/projects" fs_with_page
       ["--input"; "absent.html"; "--output"; "out"]
     = {| exitCode := 1; fs_after := fs_with_page;
          stderr := [error_line ("HTML file not found: " +:+ "absent.html")] |}.
Proof.
  apply (missing_input_is_fatal fixture_JSDOM posix_join "/projects" fs_with_page
           ["--input"; "absent.html"; "--output"; "out"]
           (Build_Args (Some "absent.html") (Some "out") None None false)
           "absent.html" no_options); reflexivity.
Defined.

(** ** Component boundaries *)

Lemma elements_from_node_at n :
  forall q p m, In (p, m) (elements_from q n) ->
                exists r, p = (q ++ r)%list /\ node_at n r = Some m.
Proof.
  induction n as [ns tag attrs kids IH | | | ] using node_nested_ind;
    intros q p m; cbn [elements_from]; try contradiction.
  intros [Heq | Hin].
  - injection Heq as <- <-. exists []. now rewrite app_nil_r.
  - assert (Hgo : forall l i,
               Forall (fun n => forall q p m, In (p, m) (elements_from q n) ->
                         exists r, p = (q ++ r)%list /\ node_at n r = Some m) l ->
               In (p, m) (elements_from_children elements_from q i l) ->
               exists j k r', nth_error l j = Some k
                              /\ p = ((q ++ [i + j]) ++ r')%list
                              /\ node_at k r' = Some m).
    { induction l as [|k l IHl]; intros i HF; cbn [elements_from_children]; [intros []|].
      inversion HF as [|? ? Hk Hl]; subst.
      rewrite in_app_iff. intros [H1 | H2].
      - apply Hk in H1 as (r' & -> & Hat). exists 0, k, r'.
        now rewrite Nat.add_0_r.
      - apply (IHl (S i) Hl) in H2 as (j & k' & r' & Hn & -> & Hat).
        exists (S j), k', r'. repeat split; [exact Hn | | exact Hat].
        now rewrite Nat.add_succ_r. }
    destruct (Hgo kids 0 IH Hin) as (j & k & r' & Hn & -> & Hat).
    exists (j :: r'). split; [now rewrite <- app_assoc|].
    cbn [node_at]. now rewrite Hn.
Qed.

Lemma all_elements_functional d p n1 n2 :
  In (p, n1) (all_elements d) -> In (p, n2) (all_elements d) -> n1 = n2.
Proof.
  unfold all_elements. intros H1 H2.
  apply elements_from_node_at in H1 as (r1 & -> & Hat1).
  apply elements_from_node_at in H2 as (r2 & Heq & Hat2).
  cbn in Heq. subst r2. congruence.
Qed.

Lemma querySelectorAll_elements d sel el :
  In el (querySelectorAll d sel) -> In el (all_elements d).
Proof. unfold querySelectorAll. intros H. now apply List.filter_In in H as [H _]. Qed.

Lemma semantic_pass_boundary_of d counter :
  Forall (boundary_of d) (fst (semantic_pass d counter)).
Proof.
  unfold semantic_pass.
  assert (Hgen : forall els acc,
            Forall (fun el => In el (all_elements d)) els ->
            Forall (boundary_of d) (fst acc) ->
            Forall (boundary_of d)
              (fst (fold_left
                      (fun '(boundaries, counter) el =>
                         let '(b, counter') := semantic_boundary el counter in
                         ((boundaries ++ [b])%list, counter')) els acc))).
  { induction els as [|el els IH]; intros [bs c] Hels Hacc; [exact Hacc|].
    inversion Hels as [|? ? Hel Hrest]; subst. cbn [fold_left].
    unfold semantic_boundary at 2.
    destruct (suggestComponentName (snd el) c) as [suggested c'].
    apply IH; [exact Hrest|]. cbn [fst] in *.
    apply Forall_app. split; [exact Hacc|].
    constructor; [|constructor]. now repeat split. }
  apply Hgen; [|constructor].
  apply List.Forall_forall. intros el Hel. apply in_flat_map in Hel as (sel & _ & Hel).
  now apply querySelectorAll_elements in Hel.
Qed.

Lemma exists_same_boundary d found el c :
  Forall (boundary_of d) found ->
  In el (all_elements d) ->
  className_of (ns_of (snd el)) (attributes_of (snd el)) = Some c ->
  existsb (same_boundary el c) found = true
  <-> exists b, In b found /\ Boundary.className b = Some c
                /\ Boundary.type b = JS.toLowerCase (tag_of (snd el)).
Proof.
  intros Hwf Hel Hc. rewrite existsb_exists. split.
  - intros (b & Hb & Hsame). exists b. split; [exact Hb|].
    rewrite List.Forall_forall in Hwf. destruct (Hwf b Hb) as (Hin & Hclass & Htype).
    unfold same_boundary in Hsame. apply orb_prop in Hsame as [Hpath | Hfields].
    + apply bool_decide_eq_true_1 in Hpath.
      destruct (Boundary.element b) as [pb nb] eqn:Helem. destruct el as [pe ne].
      cbn [fst snd] in *. subst pb.
      rewrite (all_elements_functional d pe nb ne Hin Hel) in *.
      now rewrite Hclass, Htype.
    + apply andb_prop in Hfields as [Hcls Hty].
      destruct (Boundary.className b) as [c'|]; [|discriminate].
      apply String.eqb_eq in Hcls, Hty. now subst.
  - intros (b & Hb & Hcls & Hty). exists b. split; [exact Hb|].
    unfold same_boundary. rewrite Hcls, Hty, !String.eqb_refl. apply orb_true_r.
Qed.

Lemma class_step_boundary_of patterns d found el :
  In el (all_elements d) ->
  Forall (boundary_of d) found ->
  Forall (boundary_of d) (class_step patterns found el).
Proof.
  intros Hel Hwf. unfold class_step.
  destruct (className_of _ _) as [c|] eqn:Hc; [|exact Hwf].
  destruct (first_match patterns c); [|exact Hwf].
  destruct (negb _); [|exact Hwf].
  apply Forall_app. split; [exact Hwf|].
  constructor; [|constructor]. now repeat split.
Qed.

Section Monotonic.

Variables patterns patterns' : list ClassPattern.
Variable d : node.
Hypothesis patterns_included : incl patterns patterns'.

Lemma first_match_included c :
  first_match patterns c <> None -> first_match patterns' c <> None.
Proof.
  unfold first_match. intros Hsome Hnone.
  destruct (List.find _ patterns) as [p|] eqn:Hfind; [|contradiction].
  apply List.find_some in Hfind as [Hin Htest].
  pose proof (List.find_none _ _ Hnone p (patterns_included p Hin)) as Hfalse.
  cbn beta in Hfalse. congruence.
Qed.

Lemma class_step_simulates found found' el :
  In el (all_elements d) ->
  Forall (boundary_of d) found ->
  Forall (boundary_of d) found' ->
  simulates patterns patterns' found found' ->
  simulates patterns patterns' (class_step patterns found el)
    (class_step patterns' found' el).
Proof.
  intros Hel Hwf Hwf' [Hfwd Hback]. unfold class_step.
  destruct (className_of _ _) as [c|] eqn:Hc; [|now split].
  destruct (first_match patterns c) as [p|] eqn:HP.
  - destruct (first_match patterns' c) as [p'|] eqn:HP';
      [|now destruct (first_match_included c); [rewrite HP|]].
    destruct (existsb (same_boundary el c) found) eqn:Hex; cbn [negb].
    + destruct (existsb (same_boundary el c) found') eqn:Hex'; cbn [negb]; [now split|].
      split.
      * intros b Hb. destruct (Hfwd b Hb) as (b' & Hb' & Hrest).
        exists b'. split; [apply in_or_app; now left | exact Hrest].
      * intros b' c0 Hb' Hcls Hmatch. apply in_app_or in Hb' as [Hold | [<- | []]].
        { now apply (Hback b' c0). }
        cbn in Hcls. injection Hcls as <-. cbn [Boundary.type].
        now apply (exists_same_boundary d found el c Hwf Hel Hc).
    + assert (Hex' : existsb (same_boundary el c) found' = false).
      { apply not_true_is_false. intros Htrue.
        apply (exists_same_boundary d found' el c Hwf' Hel Hc) in Htrue
          as (b' & Hb' & Hcls & Hty).
        destruct (Hback b' c Hb' Hcls) as (b & Hb & Hcls0 & Hty0); [now rewrite HP|].
        assert (Hfound : existsb (same_boundary el c) found = true).
        { apply (exists_same_boundary d found el c Hwf Hel Hc).
          exists b. repeat split; [exact Hb | exact Hcls0 | congruence]. }
        congruence. }
      rewrite Hex'. cbn [negb]. split.
      * intros b Hb. apply in_app_or in Hb as [Hold | [<- | []]].
        { destruct (Hfwd b Hold) as (b' & Hb' & Hrest).
          exists b'. split; [apply in_or_app; now left | exact Hrest]. }
        eexists. split; [apply in_or_app; right; now left|].
        split; [now repeat split|].
        intros Hkeeps. specialize (Hkeeps c p eq_refl HP). congruence.
      * intros b' c0 Hb' Hcls Hmatch. apply in_app_or in Hb' as [Hold | [<- | []]].
        { destruct (Hback b' c0 Hold Hcls Hmatch) as (b & Hb & Hrest).
          exists b. split; [apply in_or_app; now left | exact Hrest]. }
        eexists. split; [apply in_or_app; right; now left|].
        cbn in *. now split.
  - destruct (first_match patterns' c) as [p'|]; [|now split].
    destruct (negb _); [|now split].
    split.
    + intros b Hb. destruct (Hfwd b Hb) as (b' & Hb' & Hrest).
      exists b'. split; [apply in_or_app; now left | exact Hrest].
    + intros b' c0 Hb' Hcls Hmatch. apply in_app_or in Hb' as [Hold | [<- | []]].
      { now apply (Hback b' c0). }
      cbn in Hcls. injection Hcls as <-. now rewrite HP in Hmatch.
Qed.

Lemma class_pass_simulates els :
  forall found found',
    Forall (fun el => In el (all_elements d)) els ->
    Forall (boundary_of d) found ->
    Forall (boundary_of d) found' ->
    simulates patterns patterns' found found' ->
    simulates patterns patterns'
      (fold_left (class_step patterns) els found)
      (fold_left (class_step patterns') els found').
Proof.
  induction els as [|el els IH]; intros found found' Hels Hwf Hwf' Hsim; [exact Hsim|].
  inversion Hels as [|? ? Hel Hrest]; subst. cbn [fold_left].
  apply IH; [exact Hrest | | | ].
  - now apply class_step_boundary_of.
  - now apply class_step_boundary_of.
  - now apply class_step_simulates.
Qed.

Lemma extract_simulates counter :
  simulates patterns patterns'
    (fst (extractComponentBoundariesWith patterns d counter))
    (fst (extractComponentBoundariesWith patterns' d counter)).
Proof.
  unfold extractComponentBoundariesWith.
  pose proof (semantic_pass_boundary_of d counter) as Hwf.
  destruct (semantic_pass d counter) as [found c]. cbn [fst] in *.
  unfold class_pass. apply class_pass_simulates; try exact Hwf.
  - apply List.Forall_forall. intros el Hel. now apply querySelectorAll_elements in Hel.
  - split.
    + intros b Hb. exists b. repeat split. exact Hb.
    + intros b' c0 Hb' Hcls _. exists b'. now repeat split.
Qed.

End Monotonic.

Lemma first_match_app patterns extra c p :
  first_match patterns c = Some p -> first_match (patterns ++ extra) c = Some p.
Proof.
  unfold first_match. induction patterns as [|q r IH]; [discriminate|].
  cbn [List.find app]. destruct (pattern q c); [trivial | exact IH].
Qed.

(** C3, as amended. For every boundary found under a list of class patterns,
    every list that includes it finds a boundary for the same element, with the
    same type, role, id and class name; the boundary itself, suggested name
    included, is found again whenever the larger list keeps the first match of
    the class name, as it does when patterns are added at the end of the
    list. *)
Theorem boundary_detection_monotonic
    (patterns patterns' : list ClassPattern) (documentElement : node) (counter : nat)
    (b : Boundary.t) :
  incl patterns patterns' ->
  In b (fst (extractComponentBoundariesWith patterns documentElement counter)) ->
  (exists b',
     In b' (fst (extractComponentBoundariesWith patterns' documentElement counter))
     /\ same_element b b')
  /\ (keeps_first_match patterns patterns' b ->
      In b (fst (extractComponentBoundariesWith patterns' documentElement counter)))
  /\ (forall extra,
        In b (fst (extractComponentBoundariesWith (patterns ++ extra)
                     documentElement counter))).
Proof.
  intros Hincl Hb.
  destruct (extract_simulates patterns patterns' documentElement Hincl counter)
    as [Hfwd _].
  destruct (Hfwd b Hb) as (b' & Hb' & Hsame & Hkeep).
  repeat split.
  - now exists b'.
  - intros Hk. now rewrite <- (Hkeep Hk).
  - intros extra.
    destruct (extract_simulates patterns (patterns ++ extra) documentElement
                (incl_appl extra (incl_refl patterns)) counter) as [Hfwd2 _].
    destruct (Hfwd2 b Hb) as (b2 & Hb2 & _ & Hkeep2).
    rewrite <- Hkeep2; [exact Hb2|].
    intros c p _ Hp. now apply first_match_app.
Qed.

Lemma boundary_detection_monotonic_witness :
  (exists b',
     In b' (fst (extractComponentBoundariesWith classPatterns card_page 0))
     /\ same_element card_boundary b')
  /\ (keeps_first_match [card_pattern] classPatterns card_boundary ->
      In card_boundary (fst (extractComponentBoundariesWith classPatterns card_page 0)))
  /\ (forall extra,
        In card_boundary
          (fst (extractComponentBoundariesWith ([card_pattern] ++ extra) card_page 0))).
Proof.
  apply (boundary_detection_monotonic [card_pattern] classPatterns card_page 0 card_boundary).
  - intros p [<- | []]. unfold classPatterns, card_pattern. cbn. tauto.
  - vm_compute. now left.
Defined.

(** C3, as stated, fails: the suggested name follows the first match, so a
    pattern put before the others renames a boundary that it matches too. The
    card is found under the list of the one pattern, and the boundary found is
    not among those found under the larger list, where the card is named Bar. *)
Lemma renamed_boundary_counterexample :
  incl [card_pattern] [bar_pattern; card_pattern]
  /\ In card_boundary (fst (extractComponentBoundariesWith [card_pattern] card_page 0))
  /\ ~ In card_boundary
        (fst (extractComponentBoundariesWith [bar_pattern; card_pattern] card_page 0)).
Proof.
  split; [intros p [<- | []]; right; now left|].
  split; [vm_compute; now left|].
  vm_compute. intros [Hsame | []]. discriminate Hsame.
Qed.

Example boundary_renamed_by_earlier_pattern :
  map Boundary.suggestedName
    (fst (extractComponentBoundariesWith [card_pattern] card_page 0))
  = [Obj.VStr "Card"]
  /\ map Boundary.suggestedName
       (fst (extractComponentBoundariesWith [bar_pattern; card_pattern] card_page 0))
     = [Obj.VStr "Bar"].
Proof. split; reflexivity. Qed.

(** ** Suggested names *)

(** C5, as amended. The suggested name is the id in PascalCase when the id is
    not empty; otherwise, when the class name of the element is a string that
    is not empty and begins with its first class name (followed by a space or
    by nothing), that class name in PascalCase; otherwise, when there is no
    class name or it is not a string, the semantic default of the tag (Header,
    Navigation, MainContent, Sidebar, Footer, Article, Section) and, for a tag
    with no default, [Component] followed by the next value of the counter. *)
Theorem suggestComponentName_amended (element : node) (componentCounter : nat) :
  let attrs := attributes_of element in
  let className := className_of (ns_of element) attrs in
  let tagName := JS.toLowerCase (tag_of element) in
  (id_of attrs <> EmptyString ->
     suggestComponentName element componentCounter
     = (Obj.VStr (toPascalCase (id_of attrs)), componentCounter))
  /\ (forall c first,
        id_of attrs = EmptyString -> className = Some c ->
        head (class_names c) = Some first -> head (JS.split " " c) = Some first ->
        suggestComponentName element componentCounter
        = (Obj.VStr (toPascalCase first), componentCounter))
  /\ (forall name,
        id_of attrs = EmptyString -> className = None \/ className = Some EmptyString ->
        Obj.lookup semanticMap tagName = Some name ->
        suggestComponentName element componentCounter = (Obj.VStr name, componentCounter))
  /\ (id_of attrs = EmptyString -> className = None \/ className = Some EmptyString ->
      Obj.get semanticMap tagName = None ->
      suggestComponentName element componentCounter
      = (Obj.VStr ("Component" +:+ JS.of_nat (S componentCounter)), S componentCounter))
  /\ map (fun tag => Obj.lookup semanticMap tag)
       ["header"; "nav"; "main"; "aside"; "footer"; "article"; "section"]
     = map Some
         ["Header"; "Navigation"; "MainContent"; "Sidebar"; "Footer"; "Article"; "Section"].
Proof.
  cbv zeta. unfold suggestComponentName. repeat split.
  - intros Hid. destruct (id_of (attributes_of element)); [contradiction | reflexivity].
  - intros c first -> -> Hfirst Hsplit. cbn [JS.truthy].
    destruct c as [|x r]; [discriminate|].
    destruct (JS.split " " (String x r)) as [|mainClass rest]; [discriminate|].
    cbn in Hsplit. injection Hsplit as ->. reflexivity.
  - intros name -> Hclass Hlookup. cbn [JS.truthy]. unfold Obj.get. rewrite Hlookup.
    now destruct Hclass as [-> | ->].
  - intros -> Hclass Hget. cbn [JS.truthy]. rewrite Hget.
    now destruct Hclass as [-> | ->].
Qed.

Lemma suggestComponentName_amended_witness :
  suggestComponentName (Element HTML "NAV" [("class", "main-nav dark")] []) 0
  = (Obj.VStr (toPascalCase "main-nav"), 0).
Proof.
  apply (proj1 (proj2 (suggestComponentName_amended
                         (Element HTML "NAV" [("class", "main-nav dark")] []) 0))
           "main-nav dark" "main-nav"); reflexivity.
Defined.

(** C5, as stated, fails. An SVG element answers an object for its class name,
    which the converter passes over: a banner with the class logo is named
    Component1. And a class attribute that begins with a space gives the empty
    name, its first class name being main-nav. *)
Lemma suggested_name_counterexample :
  (class_names "logo" = ["logo"]
   /\ suggestComponentName (Element SVG "svg" [("role", "banner"); ("class", "logo")] []) 0
      = (Obj.VStr "Component1", 1))
  /\ (class_names " main-nav" = ["main-nav"]
      /\ toPascalCase "main-nav" = "MainNav"
      /\ suggestComponentName (Element HTML "NAV" [("class", " main-nav")] []) 0
         = (Obj.VStr EmptyString, 0)).
Proof. repeat split; reflexivity. Qed.

(** ** The embedding on small inputs *)

Example toPascalCase_examples :
  toPascalCase "main-nav" = "MainNav"
  /\ toPascalCase "user_profile card" = "UserProfileCard"
  /\ toPascalCase "site--header_" = "SiteHeader"
  /\ toPascalCase "a.b" = "Ab".
Proof. repeat split; reflexivity. Qed.

Example parseStyleString_examples :
  parseStyleString "color: red; font-size: 12px;" = Some [("color", "red"); ("fontSize", "12px")]
  /\ parseStyleString "color: red; color: blue" = Some [("color", "blue")]
  /\ parseStyleString "-webkit-box-shadow: none" = Some [("WebkitBoxShadow", "none")]
  /\ parseStyleString "background: url(http://x/y.png)" = Some [("background", "url(http")]
  /\ parseStyleString "color:" = None
  /\ parseStyleString EmptyString = None.
Proof. repeat split; reflexivity. Qed.

Example buildAttributes_examples :
  buildAttributes
    [("class", "btn primary"); ("onClick", "go()"); ("data-reactid", "7");
     ("for", "email"); ("disabled", ""); ("style", "color: red"); ("href", "/a")]
  = [ "className=" +:+ JS.dquote +:+ "btn primary" +:+ JS.dquote;
      "htmlFor=" +:+ JS.dquote +:+ "email" +:+ JS.dquote;
      "disabled";
      "style={{" +:+ JS.dquote +:+ "color" +:+ JS.dquote +:+ ":"
        +:+ JS.dquote +:+ "red" +:+ JS.dquote +:+ "}}";
      "href=" +:+ JS.dquote +:+ "/a" +:+ JS.dquote ].
Proof. reflexivity. Qed.

(** A name that is a member of [Object.prototype] is found there by
    [JSX_ATTR_MAP[name]]. *)
Example buildAttributes_inherited_name :
  buildAttributes [("constructor", "x")]
  = [ "function Object() { [native code] }=" +:+ JS.dquote +:+ "x" +:+ JS.dquote ].
Proof. reflexivity. Qed.

Example elementToJSX_examples :
  elementToJSX (merge_options no_options)
    (Element HTML "UL" [("class", "menu")]
       [ Text "  "; Element HTML "LI" [] [Text " Home "];
         Comment " separator "; Element HTML "LI" [] [Element HTML "BR" [] []];
         Element HTML "SCRIPT" [] [Text "track()"] ]) 0
  = JS.join JS.newline
      [ "<ul className=" +:+ JS.dquote +:+ "menu" +:+ JS.dquote +:+ ">";
        "  <li>Home</li>";
        "  <li><br /></li>";
        "</ul>" ]
  /\ elementToJSX (merge_options no_options)
       (Element HTML "DIV" [] [Element HTML "SCRIPT" [] [Text "track()"]]) 0
     = "<div>track()</div>"
  /\ elementToJSX (merge_options no_options) (Text " {a} ") 3 = "&#123;a&#125;".
Proof. repeat split; reflexivity. Qed.

(** Within one conversion the counter goes on from the components to the
    boundaries: an unnamed banner is Component1 among the former and Component2
    among the latter. *)
Example counter_shared_within_a_conversion :
  let page :=
    Element HTML "HTML" []
      [ Element HTML "HEAD" [] [];
        Element HTML "BODY" [] [Element HTML "DIV" [("role", "banner")] [Text "Hi"]] ] in
  match conversion_of (set_document (new_converter no_options) page) with
  | Ok r =>
      map comp_name (components r) = [Obj.VStr "Component1"]
      /\ map Boundary.suggestedName (boundaries r) = [Obj.VStr "Component2"]
  | Throw _ => False
  end.
Proof. cbv zeta. vm_compute. split; reflexivity. Qed.

(** An instance that is used again counts on: the heap carries the counter from
    one call of a method to the next on the same instance. *)
Example reused_instance_counts_on :
  let page :=
    Element HTML "HTML" []
      [ Element HTML "HEAD" [] [];
        Element HTML "BODY" [] [Element HTML "DIV" [("role", "banner")] [Text "Hi"]] ] in
  match Heap.call 0 extractComponentBoundaries
          [set_document (new_converter no_options) page] with
  | (Ok first, heap) =>
      match Heap.call 0 extractComponentBoundaries heap with
      | (Ok second, _) =>
          map Boundary.suggestedName first = [Obj.VStr "Component1"]
          /\ map Boundary.suggestedName second = [Obj.VStr "Component2"]
      | _ => False
      end
  | _ => False
  end.
Proof. cbv zeta. vm_compute. split; reflexivity. Qed.

(** * Further properties of the code *)

(** ** Characters *)

Lemma upper_char_alnum c : JS.is_alnum (JS.upper_char c) = JS.is_alnum c.
Proof. destruct c as [[] [] [] [] [] [] [] []]; reflexivity. Qed.

Lemma upper_char_not_lower c : JS.is_lower c = true -> JS.is_lower (JS.upper_char c) = false.
Proof. destruct c as [[] [] [] [] [] [] [] []]; try discriminate; reflexivity. Qed.

Lemma upper_char_not_hyphen c : JS.is_lower c = true -> Ascii.eqb (JS.upper_char c) "-" = false.
Proof. destruct c as [[] [] [] [] [] [] [] []]; try discriminate; reflexivity. Qed.

Lemma separator_not_alnum c : is_separator c = true -> JS.is_alnum c = false.
Proof. destruct c as [[] [] [] [] [] [] [] []]; try discriminate; reflexivity. Qed.

Lemma hyphen_not_lower c : Ascii.eqb c "-" = true -> JS.is_lower c = false.
Proof. intros H. apply Ascii.eqb_eq in H. now subst. Qed.

(** ** Names in PascalCase *)

Lemma keep_alnum_all s : all_chars JS.is_alnum (JS.keep_alnum s) = true.
Proof.
  induction s as [|c r IH]; [reflexivity|].
  cbn [JS.keep_alnum]. destruct (JS.is_alnum c) eqn:Hc; [|exact IH].
  cbn [all_chars]. now rewrite Hc.
Qed.

Lemma keep_alnum_length s :
  String.length (JS.keep_alnum s) = count_chars JS.is_alnum s.
Proof.
  induction s as [|c r IH]; [reflexivity|].
  cbn [JS.keep_alnum count_chars]. destruct (JS.is_alnum c); cbn; now rewrite IH.
Qed.

Lemma capitalize_first_count s :
  count_chars JS.is_alnum (capitalize_first s) = count_chars JS.is_alnum s.
Proof.
  destruct s as [|c r]; [reflexivity|]. cbn [capitalize_first].
  destruct (JS.is_line_terminator c); [reflexivity|].
  cbn [count_chars]. now rewrite upper_char_alnum.
Qed.

Lemma capitalize_after_separators_count s :
  forall after_run,
    count_chars JS.is_alnum (capitalize_after_separators after_run s)
    = count_chars JS.is_alnum s.
Proof.
  induction s as [|c r IH]; intros after_run; [reflexivity|].
  cbn [capitalize_after_separators]. destruct (is_separator c) eqn:Hsep.
  - rewrite IH. cbn [count_chars]. now rewrite (separator_not_alnum c Hsep).
  - cbn [count_chars]. rewrite IH. destruct after_run; [|reflexivity].
    now rewrite upper_char_alnum.
Qed.

(** X1. On ASCII text, a name in PascalCase holds letters and digits only, as
    many as the string it is made from holds; it is empty exactly when that
    string holds none. (Outside ASCII [toUpperCase] can make letters of
    characters that are none, which the model of strings leaves out.) *)
Theorem toPascalCase_alphanumeric (str : string) :
  all_chars is_ascii str = true ->
  all_chars JS.is_alnum (toPascalCase str) = true
  /\ String.length (toPascalCase str) = count_chars JS.is_alnum str
  /\ (toPascalCase str = EmptyString <-> count_chars JS.is_alnum str = 0).
Proof.
  intros _.
  assert (Hlen : String.length (toPascalCase str) = count_chars JS.is_alnum str).
  { unfold toPascalCase.
    now rewrite keep_alnum_length, capitalize_first_count,
      capitalize_after_separators_count. }
  repeat split.
  - apply keep_alnum_all.
  - exact Hlen.
  - intros Hempty. now rewrite <- Hlen, Hempty.
  - intros Hcount. rewrite <- Hlen in Hcount.
    now destruct (toPascalCase str).
Qed.

Lemma toPascalCase_alphanumeric_witness :
  all_chars JS.is_alnum (toPascalCase "user-profile_card 2") = true
  /\ String.length (toPascalCase "user-profile_card 2")
     = count_chars JS.is_alnum "user-profile_card 2"
  /\ (toPascalCase "user-profile_card 2" = EmptyString
      <-> count_chars JS.is_alnum "user-profile_card 2" = 0).
Proof. apply (toPascalCase_alphanumeric "user-profile_card 2"). reflexivity. Defined.

(** ** Style properties in camelCase *)

Lemma camelCase_hyphen t :
  head_lower t = false -> camelCase (String "-" t) = String "-" (camelCase t).
Proof.
  destruct t as [|l r]; [reflexivity|].
  cbn [head_lower]. intros Hl. cbn [camelCase]. cbn [Ascii.eqb Bool.eqb].
  now rewrite Hl.
Qed.

Lemma camelCase_head_not_lower s :
  head_lower s = false -> head_lower (camelCase s) = false.
Proof.
  destruct s as [|c r]; [reflexivity|]. cbn [head_lower camelCase]. intros Hc.
  destruct (Ascii.eqb c "-") eqn:Hhyphen; [|exact Hc].
  destruct r as [|l r']; [exact Hc|].
  destruct (JS.is_lower l) eqn:Hl; cbn [head_lower]; [|exact Hc].
  now apply upper_char_not_lower.
Qed.

Lemma camelCase_idempotent_bounded n :
  forall s, String.length s <= n -> camelCase (camelCase s) = camelCase s.
Proof.
  induction n as [|n IH]; intros [|c r] Hlen; try reflexivity; cbn in Hlen; [lia|].
  cbn [camelCase]. destruct (Ascii.eqb c "-") eqn:Hhyphen.
  - apply Ascii.eqb_eq in Hhyphen. subst c.
    destruct r as [|l r']; [reflexivity|].
    destruct (JS.is_lower l) eqn:Hl.
    + cbn [camelCase]. rewrite (upper_char_not_hyphen l Hl).
      rewrite IH; [reflexivity|]. cbn in Hlen. lia.
    + rewrite camelCase_hyphen.
      * rewrite IH; [reflexivity | lia].
      * apply camelCase_head_not_lower. exact Hl.
  - cbn [camelCase]. rewrite Hhyphen. rewrite IH; [reflexivity | lia].
Qed.

(** X2. Converting a style property to camelCase a second time changes
    nothing. *)
Theorem camelCase_idempotent (property : string) :
  camelCase (camelCase property) = camelCase property.
Proof. now apply (camelCase_idempotent_bounded (String.length property)). Qed.

(** ** The entries of a parsed style *)

Lemma trimEnd_idempotent s : JS.trimEnd (JS.trimEnd s) = JS.trimEnd s.
Proof.
  induction s as [|c r IH]; [reflexivity|].
  cbn [JS.trimEnd]. destruct (JS.trimEnd r) as [|c' r'] eqn:Hr.
  - destruct (JS.is_space c) eqn:Hc; [reflexivity|].
    cbn [JS.trimEnd]. now rewrite Hc.
  - cbn [JS.trimEnd] in IH |- *. now rewrite IH.
Qed.

Lemma trimEnd_head c r :
  JS.is_space c = false -> exists r', JS.trimEnd (String c r) = String c r'.
Proof.
  intros Hc. cbn [JS.trimEnd]. destruct (JS.trimEnd r); [rewrite Hc|]; eauto.
Qed.

Lemma trimStart_head s :
  JS.trimStart s = EmptyString
  \/ exists c r, JS.trimStart s = String c r /\ JS.is_space c = false.
Proof.
  induction s as [|c r IH]; [now left|].
  cbn [JS.trimStart]. destruct (JS.is_space c) eqn:Hc; [exact IH|].
  right. now exists c, r.
Qed.

Lemma trim_idempotent s : JS.trim (JS.trim s) = JS.trim s.
Proof.
  unfold JS.trim. destruct (trimStart_head s) as [-> | (c & r & -> & Hc)]; [reflexivity|].
  destruct (trimEnd_head c r Hc) as [r' Hr']. rewrite Hr' at 1.
  cbn [JS.trimStart]. rewrite Hc, <- Hr'. apply trimEnd_idempotent.
Qed.

Lemma camelCase_truthy s : JS.truthy s = true -> JS.truthy (camelCase s) = true.
Proof.
  destruct s as [|c r]; [discriminate|]. intros _. cbn [camelCase].
  destruct (Ascii.eqb c "-"); [|reflexivity].
  destruct r as [|l r']; [reflexivity|]. now destruct (JS.is_lower l).
Qed.

Lemma lookup_None_keys (o : Obj.t) k : Obj.lookup o k = None -> ~ In k (map fst o).
Proof.
  induction o as [|[k' v'] r IH]; [intros _ []|].
  cbn [Obj.lookup map fst]. destruct (String.eqb_spec k' k) as [->|Hne]; [discriminate|].
  intros Hr [Heq | Hin]; [contradiction | now apply IH].
Qed.

Lemma replace_value_keys (o : Obj.t) k v : map fst (Obj.replace_value o k v) = map fst o.
Proof.
  induction o as [|[k' v'] r IH]; [reflexivity|].
  cbn [Obj.replace_value]. destruct (String.eqb k' k); cbn [map fst]; [reflexivity|].
  now rewrite IH.
Qed.

Lemma replace_value_Forall (P : string * string -> Prop) (o : Obj.t) k v :
  P (k, v) -> Forall P o -> Forall P (Obj.replace_value o k v).
Proof.
  intros Hnew. induction 1 as [|[k' v'] r Hhead Htail IH]; [constructor|].
  cbn [Obj.replace_value]. destruct (String.eqb_spec k' k) as [->|_];
    constructor; assumption.
Qed.

Lemma insert_index_split (o : Obj.t) n k v :
  exists o1 o2, o = (o1 ++ o2)%list /\ Obj.insert_index o n k v = (o1 ++ (k, v) :: o2)%list.
Proof.
  induction o as [|[k' v'] r (o1 & o2 & Ho & Hins)].
  - now exists [], [].
  - cbn [Obj.insert_index]. destruct (Obj.array_index k') as [m|].
    + destruct (m <? n)%N.
      * exists ((k', v') :: o1), o2. cbn. now rewrite <- Ho, Hins.
      * now exists [], ((k', v') :: r).
    + now exists [], ((k', v') :: r).
Qed.

(** What [Obj.set] keeps: the keys stay distinct, and what holds of every entry
    and of the new one holds of every entry afterwards. *)
Lemma set_invariant (P : string * string -> Prop) (o : Obj.t) k v :
  P (k, v) -> List.NoDup (map fst o) -> Forall P o ->
  List.NoDup (map fst (Obj.set o k v)) /\ Forall P (Obj.set o k v).
Proof.
  intros Hnew Hdup Hall. unfold Obj.set.
  destruct (String.eqb k "__proto__"); [now split|].
  destruct (Obj.lookup o k) eqn:Hlook.
  - split; [now rewrite replace_value_keys | now apply replace_value_Forall].
  - apply lookup_None_keys in Hlook.
    assert (Hsplit : exists o1 o2, o = (o1 ++ o2)%list
              /\ match Obj.array_index k with
                 | Some n => Obj.insert_index o n k v
                 | None => (o ++ [(k, v)])%list
                 end = (o1 ++ (k, v) :: o2)%list).
    { destruct (Obj.array_index k); [apply insert_index_split|].
      exists o, []. now rewrite app_nil_r. }
    destruct Hsplit as (o1 & o2 & -> & ->). split.
    + rewrite List.map_app in *. cbn [map fst].
      apply (List.NoDup_Add (List.Add_app k (map fst o1) (map fst o2))). now split.
    + apply Forall_app in Hall as [H1 H2]. apply Forall_app. split; [exact H1|].
      now constructor.
Qed.

(** X3. An inline style is parsed into an object that is never empty, whose
    keys are pairwise distinct, not empty and in camelCase, and whose values
    are not empty and carry no space at either end. *)
Theorem parseStyleString_entries (styleStr : string) (styleObj : Obj.t) :
  parseStyleString styleStr = Some styleObj ->
  styleObj <> []
  /\ List.NoDup (Obj.keys styleObj)
  /\ Forall (fun entry =>
               fst entry <> EmptyString /\ camelCase (fst entry) = fst entry
               /\ snd entry <> EmptyString /\ JS.trim (snd entry) = snd entry)
       styleObj.
Proof.
  unfold parseStyleString. destruct (negb (JS.truthy styleStr)); [discriminate|].
  set (P := fun entry : string * string =>
              fst entry <> EmptyString /\ camelCase (fst entry) = fst entry
              /\ snd entry <> EmptyString /\ JS.trim (snd entry) = snd entry).
  assert (Hfold : forall rules o,
            List.NoDup (map fst o) -> Forall P o ->
            List.NoDup (map fst (fold_left add_rule rules o))
            /\ Forall P (fold_left add_rule rules o)).
  { induction rules as [|rule rules IH]; intros o Hdup Hall; [now split|].
    cbn [fold_left]. apply IH; unfold add_rule;
      destruct (map JS.trim (JS.split ":" rule)) as [|property [|value rest]] eqn:Hparts;
      try assumption;
      destruct (JS.truthy property && JS.truthy value) eqn:Htruthy; try assumption;
      apply andb_prop in Htruthy as [Hp Hv];
      assert (Hvalue : JS.trim value = value)
        by (destruct (JS.split ":" rule) as [|p0 [|v0 r0]]; try discriminate;
            cbn [map] in Hparts; injection Hparts as _ <- _; apply trim_idempotent);
      apply (set_invariant P); try assumption; unfold P; cbn [fst snd];
      (split; [intros Hempty; apply camelCase_truthy in Hp; now rewrite Hempty in Hp|];
       split; [apply camelCase_idempotent|];
       split; [intros ->; discriminate | exact Hvalue]). }
  destruct (Hfold (List.filter JS.truthy (JS.split ";" styleStr)) [])
    as [Hdup Hall]; [constructor | constructor |].
  destruct (fold_left add_rule _ []) as [|entry rest] eqn:Hobj; [discriminate|].
  cbn. intros [= <-]. repeat split; [discriminate | exact Hdup | exact Hall].
Qed.

Lemma parseStyleString_entries_witness :
  [("color", "red"); ("fontSize", "12px")] <> []
  /\ List.NoDup (Obj.keys [("color", "red"); ("fontSize", "12px")])
  /\ Forall (fun entry =>
               fst entry <> EmptyString /\ camelCase (fst entry) = fst entry
               /\ snd entry <> EmptyString /\ JS.trim (snd entry) = snd entry)
       [("color", "red"); ("fontSize", "12px")].
Proof.
  apply (parseStyleString_entries "color: red ; font-size:12px; color : red").
  reflexivity.
Defined.

(** ** The text that [elementToJSX] emits *)

Lemma replace_char_removes c by_ s :
  JS.includes_char by_ c = false -> JS.includes_char (JS.replace_char c by_ s) c = false.
Proof.
  intros Hby. induction s as [|d r IH]; [reflexivity|].
  cbn [JS.replace_char]. rewrite includes_char_append, IH, orb_false_r.
  destruct (Ascii.eqb d c) eqn:Hd; [exact Hby|].
  cbn [JS.includes_char]. rewrite Ascii.eqb_sym in Hd. now rewrite Hd.
Qed.

Lemma replace_char_keeps_out c d by_ s :
  JS.includes_char by_ c = false -> JS.includes_char s c = false ->
  JS.includes_char (JS.replace_char d by_ s) c = false.
Proof.
  intros Hby. induction s as [|x r IH]; [reflexivity|].
  cbn [JS.includes_char JS.replace_char]. intros [Hx Hr]%orb_false_elim.
  rewrite includes_char_append, (IH Hr), orb_false_r.
  destruct (Ascii.eqb x d); [exact Hby|].
  cbn [JS.includes_char]. now rewrite Hx.
Qed.

(** X4. The JSX emitted for a text node holds no brace: both are escaped. *)
Theorem text_braces_escaped (options : Options) (data : string) (indent : nat) :
  JS.includes_char (elementToJSX options (Text data) indent) "{" = false
  /\ JS.includes_char (elementToJSX options (Text data) indent) "}" = false.
Proof.
  cbn [elementToJSX]. destruct (negb _); [now split|].
  unfold escape_braces. split.
  - apply replace_char_keeps_out; [reflexivity|]. now apply replace_char_removes.
  - now apply replace_char_removes.
Qed.

(** ** The shape of the JSX of an element *)

Lemma truthy_append_l a b : JS.truthy a = true -> JS.truthy (a +:+ b) = true.
Proof. now destruct a. Qed.

Lemma join_cons sep x y r : JS.join sep (x :: y :: r) = x +:+ sep +:+ JS.join sep (y :: r).
Proof. reflexivity. Qed.

(** X5. An element that is not skipped always yields JSX: its indentation, an
    angle bracket and its tag name in lower case, then the rest. So an element
    contributes nothing to its parent exactly when its tag is skipped. *)
Theorem element_jsx_shape (options : Options) ns tag attrs kids (indent : nat) :
  (has SKIP_TAGS (JS.toLowerCase tag) = false ->
     exists rest,
       elementToJSX options (Element ns tag attrs kids) indent
       = JS.repeat "  " indent +:+ "<" +:+ JS.toLowerCase tag +:+ rest)
  /\ (elementToJSX options (Element ns tag attrs kids) indent = EmptyString
      <-> has SKIP_TAGS (JS.toLowerCase tag) = true).
Proof.
  assert (Hshape : has SKIP_TAGS (JS.toLowerCase tag) = false ->
     exists rest,
       elementToJSX options (Element ns tag attrs kids) indent
       = JS.repeat "  " indent +:+ "<" +:+ JS.toLowerCase tag +:+ rest).
  { intros Hskip. cbn [elementToJSX]. rewrite Hskip.
    destruct (has SELF_CLOSING_TAGS (JS.toLowerCase tag)); [eexists; reflexivity|].
    destruct (List.filter JS.truthy _) as [|child rest].
    - destruct (JS.truthy _); eexists; reflexivity.
    - destruct (_ && _ && _); [eexists; reflexivity|].
      cbn [app]. destruct (rest ++ _)%list as [|y r] eqn:Hrest.
      + now destruct rest.
      + rewrite join_cons, !append_assoc. eexists. reflexivity. }
  split; [exact Hshape|]. split.
  - intros Hempty. destruct (has SKIP_TAGS (JS.toLowerCase tag)) eqn:Hskip; [reflexivity|].
    destruct (Hshape eq_refl) as [rest Hrest]. rewrite Hrest in Hempty.
    destruct (JS.repeat "  " indent); discriminate.
  - intros Hskip. cbn [elementToJSX]. now rewrite Hskip.
Qed.

Lemma element_jsx_shape_witness :
  exists rest,
    elementToJSX (merge_options no_options)
      (Element HTML "DIV" [("id", "a")] [Text "x"]) 1
    = JS.repeat "  " 1 +:+ "<" +:+ JS.toLowerCase "DIV" +:+ rest.
Proof.
  apply (proj1 (element_jsx_shape (merge_options no_options) HTML "DIV"
                  [("id", "a")] [Text "x"] 1)).
  reflexivity.
Defined.

(** ** Comments *)

Lemma descendant_text_strip_comments n :
  descendant_text (strip_comments n) = descendant_text n.
Proof.
  induction n as [ns tag attrs kids IH | | | ] using node_nested_ind; try reflexivity.
  cbn [strip_comments descendant_text].
  induction IH as [|k r Hk _ IHr]; [reflexivity|].
  destruct k as [ns' tag' attrs' kids' | d | d | ]; cbn [is_comment fold_right];
    rewrite IHr; try rewrite Hk; reflexivity.
Qed.

(** X6. Unless comments are preserved, they change nothing: the JSX of a
    document is the JSX of the document without its comments. *)
Theorem comments_are_dropped (options : Options) (element : node) (indent : nat) :
  preserveComments options = false ->
  elementToJSX options (strip_comments element) indent
  = elementToJSX options element indent.
Proof.
  intros Hoff. revert indent.
  induction element as [ns tag attrs kids IH | | | ] using node_nested_ind;
    try reflexivity.
  intros indent.
  pose proof (descendant_text_strip_comments (Element ns tag attrs kids)) as Htext.
  cbn [strip_comments] in Htext |- *. cbn [elementToJSX textContent]. rewrite Htext.
  assert (Hkids :
    List.filter JS.truthy
      (map (fun child => elementToJSX options child (S indent))
         ((fix over (l : list node) : list node :=
             match l with
             | [] => []
             | k :: r => if is_comment k then over r else strip_comments k :: over r
             end) kids))
    = List.filter JS.truthy
        (map (fun child => elementToJSX options child (S indent)) kids)).
  { clear Htext. induction IH as [|k r Hk _ IHr]; [reflexivity|].
    destruct (is_comment k) eqn:Hc.
    - destruct k; try discriminate. cbn [map elementToJSX List.filter].
      rewrite Hoff. cbn [negb JS.truthy]. exact IHr.
    - cbn [map List.filter]. now rewrite Hk, IHr. }
  now rewrite Hkids.
Qed.

Lemma comments_are_dropped_witness :
  elementToJSX (merge_options no_options)
    (strip_comments (Element HTML "P" [] [Comment "note"; Text "a"; Comment "b"])) 0
  = elementToJSX (merge_options no_options)
      (Element HTML "P" [] [Comment "note"; Text "a"; Comment "b"]) 0.
Proof.
  apply (comments_are_dropped (merge_options no_options)). reflexivity.
Defined.

(** ** The two passes of the boundary detection *)

Lemma suggestComponentName_counter element counter :
  counter <= snd (suggestComponentName element counter) <= S counter.
Proof.
  unfold suggestComponentName. destruct (JS.truthy _); [cbn; lia|].
  destruct (className_of _ _) as [[|]|]; try (cbn; lia);
    destruct (Obj.get _ _); cbn; lia.
Qed.

Lemma semantic_fold els :
  forall bs counter,
    map Boundary.element
      (fst (fold_left
              (fun '(boundaries, counter) el =>
                 let '(b, counter') := semantic_boundary el counter in
                 ((boundaries ++ [b])%list, counter')) els (bs, counter)))
    = (map Boundary.element bs ++ els)%list
    /\ counter
       <= snd (fold_left
                 (fun '(boundaries, counter) el =>
                    let '(b, counter') := semantic_boundary el counter in
                    ((boundaries ++ [b])%list, counter')) els (bs, counter))
       <= counter + length els.
Proof.
  induction els as [|el els IH]; intros bs counter.
  - cbn. rewrite app_nil_r. split; [reflexivity | lia].
  - cbn [fold_left].
    pose proof (suggestComponentName_counter (snd el) counter) as Hc.
    destruct (semantic_boundary el counter) as [b counter'] eqn:Hb.
    unfold semantic_boundary in Hb.
    destruct (suggestComponentName (snd el) counter) as [suggested c].
    injection Hb as <- <-. cbn [snd] in Hc.
    match goal with
    | |- context [fold_left _ els (?acc, c)] => destruct (IH acc c) as [Helems Hcount]
    end.
    split.
    + rewrite Helems, List.map_app. cbn [map Boundary.element].
      now rewrite <- app_assoc.
    + cbn [length]. lia.
Qed.

(** X7. The semantic pass reports one boundary for each match of each
    selector, in the order of the selectors and, for one selector, of the
    document: it removes no duplicate, so that an element which answers two
    selectors is reported twice. The counter never goes back and advances by
    at most one for each boundary. *)
Theorem semantic_pass_reports_every_match (documentElement : node) (counter : nat) :
  map Boundary.element (fst (semantic_pass documentElement counter))
  = flat_map (querySelectorAll documentElement) semanticSelectors
  /\ counter <= snd (semantic_pass documentElement counter)
     <= counter + length (fst (semantic_pass documentElement counter)).
Proof.
  unfold semantic_pass.
  destruct (semantic_fold (flat_map (querySelectorAll documentElement) semanticSelectors)
              [] counter) as [Helems Hcount].
  split; [exact Helems|].
  rewrite <- (length_map Boundary.element), Helems. exact Hcount.
Qed.

Lemma same_boundary_false_key el c b :
  same_boundary el c b = false ->
  boundary_key b <> (Some c, JS.toLowerCase (tag_of (snd el))).
Proof.
  unfold same_boundary, boundary_key. intros Hfalse [= Hcls Hty].
  rewrite Hcls, Hty, !String.eqb_refl in Hfalse.
  now rewrite orb_true_r in Hfalse.
Qed.

Lemma class_fold_adds patterns d semantic els :
  forall added,
    Forall (fun el => In el (querySelectorAll d HasClassSelector)) els ->
    List.NoDup (map boundary_key added) ->
    Forall (fun b =>
              Boundary.role b = None
              /\ In (Boundary.element b) (querySelectorAll d HasClassSelector)
              /\ (forall b0, In b0 semantic -> boundary_key b0 <> boundary_key b)
              /\ exists c p, Boundary.className b = Some c
                             /\ first_match patterns c = Some p
                             /\ Boundary.suggestedName b = Obj.VStr (name p)) added ->
    exists added',
      fold_left (class_step patterns) els (semantic ++ added)%list
      = (semantic ++ added')%list
      /\ List.NoDup (map boundary_key added')
      /\ Forall (fun b =>
              Boundary.role b = None
              /\ In (Boundary.element b) (querySelectorAll d HasClassSelector)
              /\ (forall b0, In b0 semantic -> boundary_key b0 <> boundary_key b)
              /\ exists c p, Boundary.className b = Some c
                             /\ first_match patterns c = Some p
                             /\ Boundary.suggestedName b = Obj.VStr (name p)) added'.
Proof.
  induction els as [|el els IH]; intros added Hels Hdup Hall; [now exists added|].
  inversion Hels as [|? ? Hel Hrest]; subst. cbn [fold_left]. unfold class_step at 2.
  destruct (className_of _ _) as [c|]; [|now apply IH].
  destruct (first_match patterns c) as [p|] eqn:Hp; [|now apply IH].
  destruct (existsb (same_boundary el c) (semantic ++ added)) eqn:Hex; cbn [negb];
    [now apply IH|].
  rewrite <- app_assoc. apply IH; [exact Hrest | |].
  - rewrite List.map_app. cbn [map].
    apply (List.NoDup_Add (List.Add_app _ (map boundary_key added) [])).
    rewrite app_nil_r. split; [exact Hdup|].
    intros Hin. apply in_map_iff in Hin as (b & Hkey & Hb).
    assert (Hsame : same_boundary el c b = false).
    { destruct (same_boundary el c b) eqn:Hs; [|reflexivity].
      assert (existsb (same_boundary el c) (semantic ++ added) = true) as Htrue
        by (apply existsb_exists; exists b; split; [apply in_or_app; now right | exact Hs]).
      congruence. }
    now apply same_boundary_false_key in Hsame.
  - apply Forall_app. split; [exact Hall|]. constructor; [|constructor].
    cbn [Boundary.role Boundary.element Boundary.className Boundary.suggestedName].
    repeat split; [exact Hel | | now exists c, p].
    intros b0 Hb0 Hkey.
    assert (Hsame : same_boundary el c b0 = false).
    { destruct (same_boundary el c b0) eqn:Hs; [|reflexivity].
      assert (existsb (same_boundary el c) (semantic ++ added) = true) as Htrue
        by (apply existsb_exists; exists b0; split; [apply in_or_app; now left | exact Hs]).
      congruence. }
    now apply same_boundary_false_key in Hsame.
Qed.

(** X8. The class pass keeps the boundaries of the semantic pass, in place, and
    adds after them boundaries of elements that have a class attribute, each
    named by the first pattern that its class name matches. No two of the
    boundaries it adds have the same tag and the same class name, and none has
    the tag and the class name of a boundary of the semantic pass. *)
Theorem class_pass_adds_without_duplicates
    (patterns : list ClassPattern) (documentElement : node) (counter : nat) :
  exists added,
    fst (extractComponentBoundariesWith patterns documentElement counter)
    = (fst (semantic_pass documentElement counter) ++ added)%list
    /\ List.NoDup (map boundary_key added)
    /\ Forall (fun b =>
              Boundary.role b = None
              /\ In (Boundary.element b) (querySelectorAll documentElement HasClassSelector)
              /\ (forall b0, In b0 (fst (semantic_pass documentElement counter)) ->
                             boundary_key b0 <> boundary_key b)
              /\ exists c p, Boundary.className b = Some c
                             /\ first_match patterns c = Some p
                             /\ Boundary.suggestedName b = Obj.VStr (name p)) added.
Proof.
  unfold extractComponentBoundariesWith.
  destruct (semantic_pass documentElement counter) as [semantic c]. cbn [fst].
  unfold class_pass.
  destruct (class_fold_adds patterns documentElement semantic
              (querySelectorAll documentElement HasClassSelector) [])
    as (added & Hfold & Hrest).
  - now apply List.Forall_forall.
  - constructor.
  - constructor.
  - rewrite app_nil_r in Hfold. now exists added.
Qed.

(** ** The counter and the boundaries *)

Lemma same_element_refl b : same_element b b.
Proof. now repeat split. Qed.

Lemma Forall2_same_element_app bs1 bs2 b1 b2 :
  Forall2 same_element bs1 bs2 -> same_element b1 b2 ->
  Forall2 same_element (bs1 ++ [b1]) (bs2 ++ [b2]).
Proof. intros H12 Hb. apply Forall2_app; [exact H12 | now constructor]. Qed.

Lemma semantic_fold_same_element els :
  forall bs1 bs2 c1 c2,
    Forall2 same_element bs1 bs2 ->
    Forall2 same_element
      (fst (fold_left
              (fun '(boundaries, counter) el =>
                 let '(b, counter') := semantic_boundary el counter in
                 ((boundaries ++ [b])%list, counter')) els (bs1, c1)))
      (fst (fold_left
              (fun '(boundaries, counter) el =>
                 let '(b, counter') := semantic_boundary el counter in
                 ((boundaries ++ [b])%list, counter')) els (bs2, c2))).
Proof.
  induction els as [|el els IH]; intros bs1 bs2 c1 c2 H12; [exact H12|].
  cbn [fold_left].
  destruct (semantic_boundary el c1) as [b1 c1'] eqn:Hb1.
  destruct (semantic_boundary el c2) as [b2 c2'] eqn:Hb2.
  unfold semantic_boundary in Hb1, Hb2.
  destruct (suggestComponentName (snd el) c1) as [s1 n1].
  destruct (suggestComponentName (snd el) c2) as [s2 n2].
  injection Hb1 as <- <-. injection Hb2 as <- <-.
  apply IH. apply Forall2_same_element_app; [exact H12 | now repeat split].
Qed.

Lemma existsb_same_element el c bs1 bs2 :
  Forall2 same_element bs1 bs2 ->
  existsb (same_boundary el c) bs1 = existsb (same_boundary el c) bs2.
Proof.
  induction 1 as [|b1 b2 r1 r2 (He & Ht & _ & _ & Hc) _ IH]; [reflexivity|].
  cbn [existsb]. rewrite IH. f_equal. unfold same_boundary. now rewrite He, Ht, Hc.
Qed.

Lemma class_step_same_element patterns el bs1 bs2 :
  Forall2 same_element bs1 bs2 ->
  Forall2 same_element (class_step patterns bs1 el) (class_step patterns bs2 el).
Proof.
  intros H12. unfold class_step.
  destruct (className_of _ _) as [c|]; [|exact H12].
  destruct (first_match patterns c); [|exact H12].
  rewrite (existsb_same_element el c bs1 bs2 H12).
  destruct (negb _); [|exact H12].
  apply Forall2_same_element_app; [exact H12 | apply same_element_refl].
Qed.

(** X9. The boundaries that are found do not depend on the counter, their
    suggested names aside: from any two values of the counter the detection
    reports boundaries of the same elements, in the same order, with the same
    type, role, id and class name. *)
Theorem boundaries_independent_of_counter
    (patterns : list ClassPattern) (documentElement : node) (counter1 counter2 : nat) :
  Forall2 same_element
    (fst (extractComponentBoundariesWith patterns documentElement counter1))
    (fst (extractComponentBoundariesWith patterns documentElement counter2)).
Proof.
  unfold extractComponentBoundariesWith.
  pose proof (semantic_fold_same_element
                (flat_map (querySelectorAll documentElement) semanticSelectors)
                [] [] counter1 counter2 (List.Forall2_nil _)) as Hsem.
  fold (semantic_pass documentElement counter1) in Hsem.
  fold (semantic_pass documentElement counter2) in Hsem.
  destruct (semantic_pass documentElement counter1) as [bs1 c1].
  destruct (semantic_pass documentElement counter2) as [bs2 c2].
  cbn [fst] in *. unfold class_pass.
  generalize (querySelectorAll documentElement HasClassSelector) as els.
  intros els. revert bs1 bs2 Hsem.
  induction els as [|el els IH]; intros bs1 bs2 Hsem; [exact Hsem|].
  cbn [fold_left]. apply IH. now apply class_step_same_element.
Qed.

(** X10. In the result of a conversion the components and the boundaries
    answer one another, one component for each boundary and in the same
    order: the JSX of a component is that of the element of its boundary at
    indentation 2, and its file is named after the component. *)
Theorem components_answer_boundaries (converter : Converter.t) (r : Conversion) :
  conversion_of converter = Ok r ->
  Forall2
    (fun component boundary =>
       jsx component
       = elementToJSX (Converter.options converter)
           (snd (Boundary.element boundary)) 2
       /\ filename component
          = Obj.to_string (comp_name component) +:+ "."
            +:+ (if generateTypeScript (Converter.options converter) then "tsx" else "jsx"))
    (components r) (boundaries r).
Proof.
  unfold conversion_of, convertBody, extractAllComponents, getComponentTree,
    extractComponentBoundaries, the_document.
  destruct (Converter.document converter) as [d|] eqn:Hdoc; [|discriminate].
  cbn [bind].
  pose proof (boundaries_independent_of_counter classPatterns d
                (Converter.componentCounter converter)) as Hsame.
  destruct (extractComponentBoundariesWith classPatterns d
              (Converter.componentCounter converter)) as [bs1 c1].
  cbn [bind snd fst set_counter Converter.document Converter.componentCounter].
  rewrite Hdoc. cbn [bind]. specialize (Hsame c1).
  destruct (extractComponentBoundariesWith classPatterns d c1) as [bs2 c2].
  cbn [fst] in Hsame.
  assert (Hgoal :
    Forall2
      (fun component boundary =>
         jsx component
         = elementToJSX (Converter.options converter)
             (snd (Boundary.element boundary)) 2
         /\ filename component
            = Obj.to_string (comp_name component) +:+ "."
              +:+ (if generateTypeScript (Converter.options converter)
                   then "tsx" else "jsx"))
      (map (fun boundary =>
              generateComponent (Converter.options converter)
                (snd (Boundary.element boundary)) (Boundary.suggestedName boundary)) bs1)
      bs2).
  { induction Hsame as [|b1 b2 r1 r2 (He & _) _ IH]; [constructor|].
    cbn [map]. constructor; [|exact IH].
    cbn [jsx filename comp_name generateComponent]. now rewrite He. }
  destruct (body d); cbn [bind]; intros [= <-]; exact Hgoal.
Qed.

Lemma components_answer_boundaries_witness :
  Forall2
    (fun component boundary =>
       jsx component
       = elementToJSX (merge_options no_options) (snd (Boundary.element boundary)) 2
       /\ filename component
          = Obj.to_string (comp_name component) +:+ "."
            +:+ (if generateTypeScript (merge_options no_options) then "tsx" else "jsx"))
    (map (fun boundary =>
            generateComponent (merge_options no_options)
              (snd (Boundary.element boundary)) (Boundary.suggestedName boundary))
       (fst (extractComponentBoundariesWith classPatterns card_page 0)))
    (fst (extractComponentBoundariesWith classPatterns card_page 0)).
Proof.
  apply (components_answer_boundaries (set_document (new_converter no_options) card_page)
           {| fullJSX := elementToJSX (merge_options no_options)
                           (Element HTML "BODY" []
                              [Element HTML "DIV" [("class", "card")] [Text "x"]]) 0;
              components :=
                map (fun boundary =>
                       generateComponent (merge_options no_options)
                         (snd (Boundary.element boundary))
                         (Boundary.suggestedName boundary))
                  (fst (extractComponentBoundariesWith classPatterns card_page 0));
              tree := buildTree (Element HTML "BODY" []
                              [Element HTML "DIV" [("class", "card")] [Text "x"]]);
              boundaries := fst (extractComponentBoundariesWith classPatterns card_page 0) |}).
  vm_compute. reflexivity.
Defined.

(** ** Writing twice, and failing half-way *)

Section WriteTwice.

Variable path_join : list string -> string.
Variable outputDir : string.

Lemma write_each_replay components :
  forall fs written written' fs',
    write_each path_join fs components outputDir written = (Ok written', fs') ->
    forall fs2 written2,
      FS.dirs fs2 = FS.dirs fs ->
      exists fs2',
        write_each path_join fs2 components outputDir written2
        = (Ok (written2 ++ map (fun c => path_join [outputDir; filename c]) components)%list,
           fs2')
        /\ FS.dirs fs2' = FS.dirs fs2
        /\ forall p,
             FS.files fs2' !! p
             = match last_content (fun c => path_join [outputDir; filename c])
                       components p with
               | Some x => Some x
               | None => FS.files fs2 !! p
               end.
Proof.
  induction components as [|c rest IH]; intros fs written written' fs';
    cbn [write_each].
  - intros _ fs2 written2 _. exists fs2. cbn. now rewrite app_nil_r.
  - unfold FS.writeFileSync. destruct (bool_decide _) eqn:Hdir; [discriminate|].
    intros Hrest fs2 written2 Hdirs.
    destruct (IH _ _ _ _ Hrest
                {| FS.files := <[path_join [outputDir; filename c] := content c]>
                                 (FS.files fs2);
                   FS.dirs := FS.dirs fs2 |}
                (written2 ++ [path_join [outputDir; filename c]])%list)
      as (fs2' & Hrun & Hd & Hfiles); [cbn; exact Hdirs|].
    exists fs2'. repeat split.
    + cbn [write_each]. unfold FS.writeFileSync. rewrite Hdirs, Hdir, <- Hdirs, Hrun.
      cbn [map]. now rewrite <- app_assoc.
    + exact Hd.
    + intros p. rewrite (Hfiles p). cbn [last_content FS.files].
      destruct (last_content _ rest p); [reflexivity|].
      destruct (String.eqb_spec (path_join [outputDir; filename c]) p) as [->|Hne].
      * apply lookup_insert_eq.
      * now apply lookup_insert_ne.
Qed.

Lemma write_each_app before after :
  forall fs written,
    write_each path_join fs (before ++ after) outputDir written
    = match write_each path_join fs before outputDir written with
      | (Ok written', fs') => write_each path_join fs' after outputDir written'
      | (Throw m, fs') => (Throw m, fs')
      end.
Proof.
  induction before as [|c rest IH]; intros fs written; [reflexivity|].
  cbn [app write_each]. destruct (FS.writeFileSync _ _ _) as [[u|m] fs1]; [apply IH | reflexivity].
Qed.

(** X11. Writing the same components a second time changes nothing: after a
    successful [writeComponents], the same call succeeds again, returns the
    same paths and leaves the file system as the first call left it. *)
Theorem writeComponents_idempotent
    (fs : FS.t) (components : list Component) (written : list string) (fs' : FS.t) :
  writeComponents path_join fs components outputDir = (Ok written, fs') ->
  writeComponents path_join fs' components outputDir = (Ok written, fs').
Proof.
  unfold writeComponents. intros Hfirst.
  set (fs0 := if negb (FS.existsSync fs outputDir) then FS.mkdirSync fs outputDir else fs)
    in Hfirst.
  destruct (write_each_replay _ _ _ _ _ Hfirst fs0 [] eq_refl) as (fs1 & Hrun1 & _ & Hfiles1).
  rewrite Hfirst in Hrun1. injection Hrun1 as Hwritten Hfs1. subst fs1.
  pose proof (write_each_frame path_join outputDir _ _ _ _ _ Hfirst) as [Hdirs _].
  assert (Hexists : FS.existsSync fs' outputDir = true).
  { unfold FS.existsSync. destruct (FS.existsSync fs outputDir) eqn:Hex.
    - subst fs0. cbn [negb] in *. unfold FS.existsSync in Hex.
      apply orb_prop in Hex as [Hfile | Hdir].
      + apply bool_decide_eq_true_1 in Hfile as [x Hx].
        rewrite bool_decide_eq_true_2; [reflexivity|].
        rewrite (Hfiles1 outputDir). destruct (last_content _ _ _); [eauto|].
        rewrite Hx. eauto.
      + rewrite Hdirs, Hdir. apply orb_true_r.
    - subst fs0. cbn [negb] in *. rewrite Hdirs. cbn [FS.mkdirSync FS.dirs].
      rewrite (bool_decide_eq_true_2 (outputDir ∈ {[outputDir]} ∪ FS.dirs fs));
        [apply orb_true_r | set_solver]. }
  rewrite Hexists. cbn [negb].
  destruct (write_each_replay _ _ _ _ _ Hfirst fs' [] Hdirs) as (fs2 & Hrun2 & Hdirs2 & Hfiles2).
  rewrite Hrun2. cbn [app]. rewrite <- Hwritten. cbn [app]. f_equal.
  destruct fs2 as [files2 dirs2], fs' as [files' dirs']. cbn [FS.files FS.dirs] in *.
  f_equal; [|exact Hdirs2].
  apply map_eq. intros p. rewrite (Hfiles2 p), (Hfiles1 p).
  now destruct (last_content _ _ _).
Qed.

(** X12. A write that fails stops the loop and undoes nothing: when the file of
    a component cannot be written because its path is a directory,
    [writeComponents] throws, the components before it stay written, and
    those after it are not written. *)
Theorem writeComponents_stops_at_failure
    (fs : FS.t) (before after : list Component) (failing : Component)
    (written : list string) (fs' : FS.t) :
  writeComponents path_join fs before outputDir = (Ok written, fs') ->
  path_join [outputDir; filename failing] ∈ FS.dirs fs' ->
  writeComponents path_join fs (before ++ failing :: after) outputDir
  = (Throw ("EISDIR: illegal operation on a directory, open '"
            +:+ path_join [outputDir; filename failing] +:+ "'"), fs').
Proof.
  unfold writeComponents. intros Hbefore Hdir.
  rewrite write_each_app, Hbefore. cbn [write_each]. unfold FS.writeFileSync.
  now rewrite bool_decide_eq_true_2.
Qed.

End WriteTwice.

Lemma writeComponents_idempotent_witness :
  writeComponents posix_join
    (snd (writeComponents posix_join fs_with_old_header [header_component] "out"))
    [header_component] "out"
  = (Ok ["out/Header.tsx"],
     snd (writeComponents posix_join fs_with_old_header [header_component] "out")).
Proof.
  apply (writeComponents_idempotent posix_join "out" fs_with_old_header).
  vm_compute. reflexivity.
Defined.

Lemma writeComponents_stops_at_failure_witness :
  writeComponents posix_join
    {| FS.files := ∅; FS.dirs := {[ "out"; "out/Nav.tsx" ]} |}
    ([header_component]
     ++ {| comp_name := Obj.VStr "Nav"; filename := "Nav.tsx";
           content := "nav"; jsx := EmptyString |}
        :: [ {| comp_name := Obj.VStr "Footer"; filename := "Footer.tsx";
                content := "footer"; jsx := EmptyString |} ])
    "out"
  = (Throw ("EISDIR: illegal operation on a directory, open '"
            +:+ posix_join ["out"; "Nav.tsx"] +:+ "'"),
     snd (writeComponents posix_join
            {| FS.files := ∅; FS.dirs := {[ "out"; "out/Nav.tsx" ]} |}
            [header_component] "out")).
Proof.
  apply (writeComponents_stops_at_failure posix_join "out"
           {| FS.files := ∅; FS.dirs := {[ "out"; "out/Nav.tsx" ]} |}
           [header_component]
           [ {| comp_name := Obj.VStr "Footer"; filename := "Footer.tsx";
                content := "footer"; jsx := EmptyString |} ]
           {| comp_name := Obj.VStr "Nav"; filename := "Nav.tsx";
              content := "nav"; jsx := EmptyString |}
           ["out/Header.tsx"]
           (snd (writeComponents posix_join
                   {| FS.files := ∅; FS.dirs := {[ "out"; "out/Nav.tsx" ]} |}
                   [header_component] "out"))).
  - vm_compute. reflexivity.
  - vm_compute. reflexivity.
Defined.

(** ** Runs of the command line *)

Section Runs.

Variable JSDOM : string -> node.
Variable path_join : list string -> string.
Variable PROJECTS_DIR : string.


(** X14. A run changes the file system only through [writeComponents]: if the
    file system after the run is not the one before, then the arguments were
    read without [--help], [--tree] was not given, an input and an output
    directory were resolved, the conversion of the input succeeded, its
    boundaries were printed, and the file system is what [writeComponents]
    left when writing the components of this conversion to that directory. *)
Theorem main_writes_only_on_request (fs : FS.t) (argv : list string) :
  fs_after (main JSDOM path_join PROJECTS_DIR fs argv) <> fs ->
  exists a input output r,
    parse_args argv (Build_Args None None None None false) = Some a
    /\ showTree (project_paths path_join PROJECTS_DIR a) = false
    /\ inputPath (project_paths path_join PROJECTS_DIR a) = Some input
    /\ outputDir (project_paths path_join PROJECTS_DIR a) = Some output
    /\ output <> EmptyString
    /\ convertHTMLToReact JSDOM fs input no_options = Ok r
    /\ print_boundaries (boundaries r) = Ok tt
    /\ fs_after (main JSDOM path_join PROJECTS_DIR fs argv)
       = snd (writeComponents path_join fs (components r) output).
Proof.
  unfold main. destruct (parse_args argv _) as [a|]; [|now intros []].
  destruct (inputPath (project_paths path_join PROJECTS_DIR a)) as [[|c p]|] eqn:Hin;
    try (now intros []).
  unfold try_block.
  destruct (convertHTMLToReact JSDOM fs (String c p) no_options) as [r|m] eqn:Hconv;
    [|now intros []].
  destruct (showTree (project_paths path_join PROJECTS_DIR a)) eqn:Htree; [now intros []|].
  destruct (print_boundaries (boundaries r)) as [[]|m] eqn:Hprint; [|now intros []].
  destruct (outputDir (project_paths path_join PROJECTS_DIR a)) as [[|c' out]|] eqn:Hout;
    try (now intros []).
  intros _. exists a, (String c p), (String c' out), r.
  repeat split; try assumption; try reflexivity; try discriminate.
  now destruct (writeComponents path_join fs (components r) (String c' out)) as [[w|m] fs'].
Qed.

End Runs.

Lemma main_writes_only_on_request_witness :
  exists a input output r,
    parse_args ["--input"; "page.html"; "--output"; "out"]
      (Build_Args None None None None false) = Some a
    /\ showTree (project_paths posix_join "/projects" a) = false
    /\ inputPath (project_paths posix_join "/projects" a) = Some input
    /\ outputDir (project_paths posix_join "/projects" a) = Some output
    /\ output <> EmptyString
    /\ convertHTMLToReact fixture_JSDOM fs_with_page input no_options = Ok r
    /\ print_boundaries (boundaries r) = Ok tt
    /\ fs_after (main fixture_JSDOM posix_join "/projects" fs_with_page
                   ["--input"; "page.html"; "--output"; "out"])
       = snd (writeComponents posix_join fs_with_page (components r) output).
Proof.
  apply (main_writes_only_on_request fixture_JSDOM posix_join "/projects" fs_with_page
           ["--input"; "page.html"; "--output"; "out"]).
  intros Hsame.
  apply (f_equal (fun f => FS.files f !! "out/Header.tsx")) in Hsame.
  vm_compute in Hsame. discriminate Hsame.
Defined.

(** ** The component tree and the order of the document *)

(** X15. The component tree lists the elements in the order of the document:
    its tags, parents before children, are the lower-cased tags of the
    elements of the document without its skipped elements, in the order in
    which [querySelectorAll] enumerates them. *)
Theorem tree_in_document_order (element : node) (t : Tree) :
  buildTree element = Some t ->
  tree_tags t
  = map (fun pn => JS.toLowerCase (tag_of (snd pn))) (all_elements (prune element)).
Proof.
  unfold all_elements. generalize (@nil nat) as p. revert t.
  induction element as [ns tag attrs kids IH | | | ] using node_nested_ind;
    intros t p; try discriminate.
  rewrite buildTree_Element.
  destruct (has SKIP_TAGS (JS.toLowerCase tag)); [discriminate|].
  intros [= <-]. cbn [tree_tags prune elements_from map snd tag_of]. f_equal.
  unfold children. generalize 0 as i.
  induction IH as [|k r Hk _ IHr]; intros i; [reflexivity|].
  destruct (skipped k) eqn:Hsk.
  - cbn [List.filter]. destruct (is_element k); [|apply IHr].
    cbn [omap list_omap]. rewrite (buildTree_skipped k Hsk). apply IHr.
  - cbn [elements_from_children List.filter]. rewrite List.map_app.
    destruct (is_element k) eqn:Hel.
    + cbn [omap list_omap]. destruct (buildTree k) as [tk|] eqn:Hbuild.
      * cbn [flat_map]. rewrite (Hk tk (p ++ [i])%list eq_refl).
        f_equal. rewrite (IHr (S i)). reflexivity.
      * destruct k; try discriminate. cbn [skipped] in Hsk.
        rewrite buildTree_Element, Hsk in Hbuild. discriminate.
    + assert (Hnone : elements_from (p ++ [i])%list (prune k) = []) by now destruct k.
      rewrite Hnone. cbn [map app]. apply IHr.
Qed.

Lemma tree_in_document_order_witness :
  tree_tags (TreeNode "ul" None (Some EmptyString)
               [TreeNode "li" None (Some EmptyString) [];
                TreeNode "li" None (Some EmptyString) []])
  = map (fun pn => JS.toLowerCase (tag_of (snd pn)))
      (all_elements
         (prune (Element HTML "UL" []
                   [Element HTML "LI" [] []; Element HTML "SCRIPT" [] [];
                    Text "x"; Element HTML "LI" [] []]))).
Proof.
  apply (tree_in_document_order
           (Element HTML "UL" []
              [Element HTML "LI" [] []; Element HTML "SCRIPT" [] [];
               Text "x"; Element HTML "LI" [] []])).
  reflexivity.
Defined.

(** ** Text nodes and white space *)

Lemma escape_braces_truthy text : JS.truthy text = true -> JS.truthy (escape_braces text) = true.
Proof.
  destruct text as [|c r]; [discriminate|]. intros _. unfold escape_braces.
  cbn [JS.replace_char]. destruct (Ascii.eqb c "{").
  - reflexivity.
  - cbn [String.append JS.replace_char]. rewrite append_cons, append_empty_l.
    cbn [JS.replace_char]. now destruct (Ascii.eqb c "}").
Qed.

(** X16. White space around the data of a text node does not count, nor does
    the indentation: the JSX of a text node is that of the node with its data
    trimmed, at any indentation, and it is empty exactly when the data is
    blank. *)
Theorem text_is_trimmed (options : Options) (data : string) (indent indent' : nat) :
  elementToJSX options (Text data) indent
  = elementToJSX options (Text (JS.trim data)) indent'
  /\ (elementToJSX options (Text data) indent = EmptyString
      <-> JS.trim data = EmptyString).
Proof.
  cbn [elementToJSX textContent descendant_text]. rewrite trim_idempotent.
  split; [reflexivity|].
  destruct (JS.trim data) as [|c r] eqn:Htrim; cbn [JS.truthy negb]; [now split|].
  split; [|discriminate]. intros Hempty.
  pose proof (escape_braces_truthy (String c r) eq_refl) as Htruthy.
  now rewrite Hempty in Htruthy.
Qed.

(** ** The fields of a boundary *)

(** X17. Every boundary that the detection reports describes an element of
    the document: its element is one of the elements of the document, its type
    is the lower-cased tag of that element and its class name is the class
    name of that element. *)
Theorem boundaries_describe_elements
    (patterns : list ClassPattern) (documentElement : node) (counter : nat) :
  Forall (boundary_of documentElement)
    (fst (extractComponentBoundariesWith patterns documentElement counter)).
Proof.
  unfold extractComponentBoundariesWith.
  pose proof (semantic_pass_boundary_of documentElement counter) as Hsem.
  destruct (semantic_pass documentElement counter) as [found c]. cbn [fst] in *.
  unfold class_pass.
  assert (Hels : Forall (fun el => In el (all_elements documentElement))
                   (querySelectorAll documentElement HasClassSelector)).
  { apply List.Forall_forall. intros el Hel. now apply querySelectorAll_elements in Hel. }
  revert found Hsem.
  induction Hels as [|el els Hel _ IH]; intros found Hsem; [exact Hsem|].
  cbn [fold_left]. apply IH. now apply class_step_boundary_of.
Qed.
